(** * Hold detection pipeline ([scripts/detect_holds.py])

    A shallow embedding of the tiling, detection-client, deduplication and
    result-assembly code of [detect_holds.py], with the properties stated
    for it.

    Number model.  Python [int] is [Z].  Python [float] is idealised as an
    exact rational ([Q]): every arithmetic operation of the script is
    modelled by the exact operation, [int(f)] by truncation towards zero and
    [round(f, n)] by round-half-to-even on n decimals.  A comparison
    [s ** 0.5 < t] is decided on the squares; [sqrt_lt_spec] relates it to
    the real square root.  The one float computation that decides integer
    tile bounds, [int(tile_width * 0.3)], is also given in binary64
    ([float_margin]) and shown equal to its exact model for every tile size
    of a working image ([float_margin_exact]).  Where a property depends on
    the rounding of the operations, the expressions of the script are
    embedded a second time on binary64 itself (module [B64]).  [print]
    calls are not modelled. *)

From Stdlib Require Import ZArith QArith Qround Lia Lqa String Floats.
From Stdlib Require Import Reals Qreals Lra.
From stdpp Require Import base list.

Local Open Scope Z_scope.

(** ** Python primitives *)

Module Py.

(** [int(f)] on a float: truncation towards zero. *)
Definition int (q : Q) : Z := Z.quot (Qnum q) (Zpos (Qden q)).

(** Nearest integer, ties to the even one. *)
Definition round_half_even (q : Q) : Z :=
  let f := Qfloor q in
  match Qcompare (q - inject_Z f) (1 # 2) with
  | Lt => f
  | Gt => f + 1
  | Eq => if Z.even f then f else f + 1
  end.

(** [round(f, ndigits)]. *)
Definition round (q : Q) (ndigits : nat) : Q :=
  let scale := inject_Z (10 ^ Z.of_nat ndigits) in
  (inject_Z (round_half_even (q * scale)) / scale)%Q.

(** [range(n)] and [range(a, b)] over the integers. *)
Definition range2 (a b : Z) : list Z :=
  map (fun k => a + Z.of_nat k) (seq 0 (Z.to_nat (b - a))).
Definition range (n : Z) : list Z := range2 0 n.

(** [sum(xs)] and [len(xs)] as floats. *)
Definition sum (xs : list Q) : Q := foldr Qplus 0%Q xs.
Definition len {A} (xs : list A) : Q := inject_Z (Z.of_nat (length xs)).

(** Index of a slice bound in a sequence of length [n]: a negative bound
    counts from the end, and the result is clipped to [0..n]. *)
Definition slice_bound (n i : Z) : Z :=
  if i <? 0 then Z.max 0 (i + n) else Z.min i n.

(** [s ** 0.5 < t] for a sum of squares [s], decided without the root. *)
Definition sqrt_lt (s t : Q) : bool :=
  match Qlt_le_dec 0 t with
  | left _ => if Qlt_le_dec s (t * t) then true else false
  | right _ => false
  end.

End Py.

(** ** Data model *)

(** A polygon vertex, the dict [{"x": .., "y": ..}]. *)
Record point := Point { pt_x : Q; pt_y : Q }.

(** A detection as the service returns it: a dict whose keys may be absent. *)
Record prediction := Prediction {
  pred_points : option (list point);   (* "points" *)
  pred_x : option Q;                   (* "x" *)
  pred_y : option Q;                   (* "y" *)
  pred_width : option Q;               (* "width" *)
  pred_height : option Q;              (* "height" *)
  pred_confidence : option Q;          (* "confidence" *)
  pred_class : option string           (* "class" *)
}.

(** [pred.get(key, d)]. *)
Definition get {A} (field : option A) (d : A) : A := default d field.

#[global] Instance Q_inhabited : Inhabited Q := populate 0%Q.
#[global] Instance prediction_inhabited : Inhabited prediction :=
  populate (Prediction None None None None None None None).

(** ** Deduplicator: [deduplicate_predictions] *)

(** ["points" in p and len(p["points"]) == 0] *)
Definition empty_points (p : prediction) : bool :=
  match pred_points p with
  | Some [] => true
  | _ => false
  end.

(** The center of one detection (the body of the first loop). *)
Definition center_of (pred : prediction) : Q * Q :=
  match pred_points pred with
  | Some pts =>
      ((Py.sum (map pt_x pts) / Py.len pts)%Q,
       (Py.sum (map pt_y pts) / Py.len pts)%Q)
  | None => (get (pred_x pred) 0%Q, get (pred_y pred) 0%Q)
  end.

(** [(ci[0] - cj[0]) ** 2 + (ci[1] - cj[1]) ** 2] *)
Definition sq_dist (ci cj : Q * Q) : Q :=
  ((ci.1 - cj.1) ^ 2 + (ci.2 - cj.2) ^ 2)%Q.

(** [dist < threshold] *)
Definition dist_lt (ci cj : Q * Q) (threshold : Q) : bool :=
  Py.sqrt_lt (sq_dist ci cj) threshold.

Section DedupLoops.

(** The list after the empty-polygon filter, and the threshold. *)
Variable predictions : list prediction.
Variable threshold : Q.

Definition centers : list (Q * Q) := map center_of predictions.

(** The test of line 64 on the pair [(i, j)]. *)
Definition close (i j : nat) : bool :=
  dist_lt (centers !!! i) (centers !!! j) threshold.

(** The test of line 66: confidence of [i] >= confidence of [j]. *)
Definition conf_ge (i j : nat) : bool :=
  Qle_bool (get (pred_confidence (predictions !!! j)) 0%Q)
           (get (pred_confidence (predictions !!! i)) 0%Q).

(** The inner loop over [j], from the current [keep]; the last case of the
    conditional is the [break]. *)
Fixpoint inner_loop (i : nat) (js : list nat) (keep : list bool) : list bool :=
  match js with
  | [] => keep
  | j :: js' =>
      if negb (keep !!! j) then inner_loop i js' keep
      else if close i j then
        if conf_ge i j then inner_loop i js' (<[j := false]> keep)
        else <[i := false]> keep
      else inner_loop i js' keep
  end.

(** The outer loop over [i]; [range(i + 1, len(predictions))] is
    [seq (S i) (length predictions - S i)]. *)
Fixpoint outer_loop (idxs : list nat) (keep : list bool) : list bool :=
  match idxs with
  | [] => keep
  | i :: idxs' =>
      if negb (keep !!! i) then outer_loop idxs' keep
      else outer_loop idxs'
             (inner_loop i (seq (S i) (length predictions - S i)) keep)
  end.

(** [keep] when both loops are done. *)
Definition final_keep : list bool :=
  outer_loop (seq 0 (length predictions)) (replicate (length predictions) true).

(** [keep] at the moment the loops reach the pair [(i, j)]: after the
    outer iterations before [i] and the inner iterations of [i] before
    [j].  If the outer loop skipped [i], or the inner loop of [i] left by
    [break] before [j], entry [i] of this list is [False]. *)
Definition keep_before (i j : nat) : list bool :=
  inner_loop i (seq (S i) (j - S i))
    (outer_loop (seq 0 i) (replicate (length predictions) true)).

(** The pair [(i, j)] reaches the distance test of line 64: neither
    [continue] is taken. *)
Definition compared (i j : nat) : Prop :=
  keep_before i j !! i = Some true /\ keep_before i j !! j = Some true.

(** The detection that loses the comparison of the pair [(i, j)]: the
    one whose flag lines 66-69 clear. *)
Definition loser (i j : nat) : nat :=
  if conf_ge i j then j else i.

(** [x] is the loser of a compared pair of near detections. *)
Definition lost (x : nat) : Prop :=
  exists i j, (i < j < length predictions)%nat /\
    compared i j /\ close i j = true /\ x = loser i j.

End DedupLoops.

(** [[p for p, k in zip(predictions, keep) if k]] *)
Definition select (predictions : list prediction) (keep : list bool)
  : list prediction :=
  map fst (List.filter snd (zip predictions keep)).

Definition deduplicate_predictions (predictions : list prediction) (threshold : Q)
  : list prediction :=
  match predictions with
  | [] => []
  | _ =>
      let predictions := List.filter (fun p => negb (empty_points p)) predictions in
      select predictions (final_keep predictions threshold)
  end.

(** ** Effects: exceptions, the network and the clock *)

(** The exceptions the modelled code raises: [Exception("API error: ..")]
    of [call_api], and the [KeyError] of a subscript on an absent key. *)
Inductive exn :=
| APIError (status_code : Z) (text : string)
| KeyError (key : string).

Inductive outcome (A : Type) :=
| Return (a : A)
| Raise (e : exn).
Arguments Return {A} a.
Arguments Raise {A} e.

(** A BGR image as numpy holds it: its shape and its pixels, channel values
    being [uint8]. *)
Record image := Image {
  img_height : Z;
  img_width : Z;
  img_pixel : Z -> Z -> Z * Z * Z      (* row, column -> (B, G, R) *)
}.

(** [img[y1:y2, x1:x2]] *)
Definition crop (img : image) (y1 y2 x1 x2 : Z) : image :=
  let ylo := Py.slice_bound (img_height img) y1 in
  let yhi := Py.slice_bound (img_height img) y2 in
  let xlo := Py.slice_bound (img_width img) x1 in
  let xhi := Py.slice_bound (img_width img) x2 in
  {| img_height := Z.max 0 (yhi - ylo);
     img_width := Z.max 0 (xhi - xlo);
     img_pixel := fun y x => img_pixel img (ylo + y) (xlo + x) |}.

(** One inference request: the query parameters and the encoded tile (the
    JPEG and base64 encodings are not modelled, the payload is the tile). *)
Record request := Request {
  req_api_key : string;
  req_confidence : Z;
  req_data : image
}.

(** What the client reads of a response; [json_predictions] is the
    ["predictions"] entry of the JSON body, if any. *)
Record response := Response {
  status_code : Z;
  text : string;
  json_predictions : option (list prediction)
}.

(** The observable effects so far: how many requests were posted, and the
    arguments of the [time.sleep] calls, oldest first. *)
Record world := World {
  posts : nat;
  sleeps : list Z
}.

(** A computation that may post, sleep and raise. *)
Definition M (A : Type) : Type := world -> outcome A * world.

Definition ret {A} (a : A) : M A := fun w => (Return a, w).
Definition raise {A} (e : exn) : M A := fun w => (Raise e, w).
Definition bind {A B} (c : M A) (k : A -> M B) : M B :=
  fun w =>
    match c w with
    | (Return a, w') => k a w'
    | (Raise e, w') => (Raise e, w')
    end.
Definition lift {A} (o : outcome A) : M A := fun w => (o, w).

Notation "x <- c ;; k" := (bind c (fun x => k))
  (at level 100, c at next level, right associativity).

(** [for x in xs: acc = body(x, acc)] *)
Fixpoint for_each {A S} (xs : list A) (body : A -> S -> M S) (acc : S) : M S :=
  match xs with
  | [] => ret acc
  | x :: xs' => acc' <- body x acc ;; for_each xs' body acc'
  end.

(** ** Detection client: [call_api] *)

(** The request [call_api] posts for a tile: the query parameters
    [api_key] and [int(confidence * 100)], and the tile as payload. *)
Definition api_request (tile : image) (api_key : string) (confidence : Q)
  : request :=
  {| req_api_key := api_key;
     req_confidence := Py.int (confidence * 100);
     req_data := tile |}.

Section Client.

(** The remote service: the response to the [n]-th request of the run. *)
Variable service : nat -> request -> response.

(** [requests.post(..)] *)
Definition post (req : request) : M response :=
  fun w => (Return (service (posts w) req),
            {| posts := S (posts w); sleeps := sleeps w |}).

(** [time.sleep(wait)] *)
Definition sleep (wait : Z) : M unit :=
  fun w => (Return tt, {| posts := posts w; sleeps := sleeps w ++ [wait] |}).

(** The [for attempt in range(max_retries)] loop; the empty case is the
    [return []] after the loop. *)
Fixpoint call_api_loop (req : request) (max_retries : Z) (attempts : list Z)
  : M (list prediction) :=
  match attempts with
  | [] => ret []
  | attempt :: attempts' =>
      response <- post req ;;
      if status_code response =? 200 then
        ret (get (json_predictions response) [])
      else if (500 <=? status_code response) && (attempt <? max_retries - 1) then
        _ <- sleep (2 ^ attempt) ;;
        call_api_loop req max_retries attempts'
      else
        raise (APIError (status_code response) (text response))
  end.

Definition call_api (tile : image) (api_key : string) (confidence : Q)
    (max_retries : Z) : M (list prediction) :=
  call_api_loop (api_request tile api_key confidence)
    max_retries (Py.range max_retries).

End Client.

(** ** Tiler *)

Definition tile_cols : Z := 3.
Definition tile_rows : Z := 3.
Definition overlap : Q := 3 # 10.

(** [int(tile_size * overlap)] as the script computes it, in binary64: the
    literal [0.3] is the double nearest to 3/10, the product is rounded,
    and [int] truncates.  ([int] of an infinity or a NaN raises; they do not
    arise here and are mapped to 0.) *)
Definition float_of_int (z : Z) : float := PrimFloat.of_uint63 (Uint63.of_Z z).

Definition int_of_float (f : float) : Z :=
  match Prim2SF f with
  | S754_finite s m e =>
      let a := if 0 <=? e then Z.shiftl (Zpos m) e else Z.shiftr (Zpos m) (- e) in
      if s then - a else a
  | _ => 0
  end.

Definition float_margin (tile_size : Z) : Z :=
  int_of_float (PrimFloat.mul (float_of_int tile_size) 0x1.3333333333333p-2%float).

(** The bounds [(x1, y1, x2, y2)] of the tile of grid cell [(row, col)]. *)
Definition tile_bounds (width height row col : Z) : Z * Z * Z * Z :=
  let tile_width := width / tile_cols in
  let tile_height := height / tile_rows in
  let overlap_x := Py.int (inject_Z tile_width * overlap) in
  let overlap_y := Py.int (inject_Z tile_height * overlap) in
  let x1 := Z.max 0 (col * tile_width - overlap_x) in
  let y1 := Z.max 0 (row * tile_height - overlap_y) in
  let x2 := Z.min width ((col + 1) * tile_width + overlap_x) in
  let y2 := Z.min height ((row + 1) * tile_height + overlap_y) in
  (x1, y1, x2, y2).

(** The nine tiles in processing order (row-major). *)
Definition tiles (width height : Z) : list (Z * Z * Z * Z) :=
  row ← Py.range tile_rows;
  col ← Py.range tile_cols;
  [tile_bounds width height row col].

(** Pixel [(x, y)] belongs to the slice [image[y1:y2, x1:x2]]. *)
Definition in_tile (x y : Z) (t : Z * Z * Z * Z) : bool :=
  let '(x1, y1, x2, y2) := t in
  (x1 <=? x) && (x <? x2) && (y1 <=? y) && (y <? y2).

(** The number of tiles of a [width] x [height] image that hold pixel
    [(x, y)]. *)
Definition tile_count (width height x y : Z) : nat :=
  length (List.filter (in_tile x y) (tiles width height)).

(** ** Coordinate mapper *)

Definition shift_point (x1 y1 : Z) (p : point) : point :=
  {| pt_x := pt_x p + inject_Z x1; pt_y := pt_y p + inject_Z y1 |}.

(** The body of [for pred in predictions] at lines 175-182; a box-form
    detection without ["x"] or ["y"] makes the subscript raise. *)
Definition adjust_prediction (x1 y1 : Z) (pred : prediction) : outcome prediction :=
  match pred_points pred with
  | Some pts =>
      Return (Prediction (Some (map (shift_point x1 y1) pts))
                (pred_x pred) (pred_y pred) (pred_width pred) (pred_height pred)
                (pred_confidence pred) (pred_class pred))
  | None =>
      match pred_x pred, pred_y pred with
      | None, _ => Raise (KeyError "x")
      | Some _, None => Raise (KeyError "y")
      | Some x, Some y =>
          Return (Prediction None
                    (Some (x + inject_Z x1)%Q) (Some (y + inject_Z y1)%Q)
                    (pred_width pred) (pred_height pred)
                    (pred_confidence pred) (pred_class pred))
      end
  end.

Fixpoint adjust_all (x1 y1 : Z) (predictions : list prediction)
  : outcome (list prediction) :=
  match predictions with
  | [] => Return []
  | pred :: rest =>
      match adjust_prediction x1 y1 pred with
      | Raise e => Raise e
      | Return pred' =>
          match adjust_all x1 y1 rest with
          | Raise e => Raise e
          | Return rest' => Return (pred' :: rest')
          end
      end
  end.

(** ** Result assembler *)

(** The final output record. *)
Record hold := Hold {
  hold_polygon : list point;
  hold_center : point;
  hold_dominant_color : string;
  hold_confidence : Q;
  hold_class : string
}.

(** [(v / dim) * 100] *)
Definition to_percent (v : Q) (dim : Z) : Q := (v / inject_Z dim * 100)%Q.

(** [int((percent / 100) * dim)] *)
Definition to_pixel (percent : Q) (dim : Z) : Z :=
  Py.int (percent / 100 * inject_Z dim).

(** [{"x": round(.., 2), "y": round(.., 2)}] of a pixel position. *)
Definition percent_point (width height : Z) (x y : Q) : point :=
  {| pt_x := Py.round (to_percent x width) 2;
     pt_y := Py.round (to_percent y height) 2 |}.

(** Lines 201-230: the polygon and the (unrounded) center of a detection;
    [None] is the [continue] on an empty polygon. *)
Definition geometry (width height : Z) (pred : prediction)
  : option (list point * Q * Q) :=
  match pred_points pred with
  | Some pts =>
      let polygon := map (fun p => percent_point width height (pt_x p) (pt_y p)) pts in
      match polygon with
      | [] => None
      | _ =>
          let center_x := (Py.sum (map pt_x polygon) / Py.len polygon)%Q in
          let center_y := (Py.sum (map pt_y polygon) / Py.len polygon)%Q in
          Some (polygon, center_x, center_y)
      end
  | None =>
      let x := get (pred_x pred) 0%Q in
      let y := get (pred_y pred) 0%Q in
      let w := get (pred_width pred) 0%Q in
      let h := get (pred_height pred) 0%Q in
      let polygon :=
        [ percent_point width height (x - w / 2) (y - h / 2);
          percent_point width height (x + w / 2) (y - h / 2);
          percent_point width height (x + w / 2) (y + h / 2);
          percent_point width height (x - w / 2) (y + h / 2) ] in
      let center_x := Py.round (to_percent x width) 2 in
      let center_y := Py.round (to_percent y height) 2 in
      Some (polygon, center_x, center_y)
  end.

Definition sample_size : Z := 5.

(** Sum of one channel over a whole region. *)
Definition channel_sum (region : image) (channel : Z * Z * Z -> Z) : Z :=
  foldr (fun y acc =>
           foldr (fun x acc' => channel (img_pixel region y x) + acc') acc
                 (Py.range (img_width region)))
        0 (Py.range (img_height region)).

(** [int(region.mean(axis=(0, 1))[c])] *)
Definition channel_mean (region : image) (channel : Z * Z * Z -> Z) : Z :=
  Py.int (inject_Z (channel_sum region channel)
          / inject_Z (img_height region * img_width region)).

Definition hex_digit (d : Z) : string :=
  match String.get (Z.to_nat d) "0123456789abcdef" with
  | Some c => String c EmptyString
  | None => EmptyString
  end.

(** ["{:02x}"] of a channel value (between 0 and 255). *)
Definition hex2 (n : Z) : string :=
  (hex_digit (n / 16) ++ hex_digit (n mod 16))%string.

(** Lines 236-252. *)
Definition dominant_color (img : image) (center_x center_y : Q) : string :=
  let width := img_width img in
  let height := img_height img in
  let cx_px := to_pixel center_x width in
  let cy_px := to_pixel center_y height in
  let x1 := Z.max 0 (cx_px - sample_size) in
  let x2 := Z.min width (cx_px + sample_size) in
  let y1 := Z.max 0 (cy_px - sample_size) in
  let y2 := Z.min height (cy_px + sample_size) in
  let region := crop img y1 y2 x1 x2 in
  if 0 <? img_height region * img_width region * 3 then
    let b := channel_mean region (fun p => p.1.1) in
    let g := channel_mean region (fun p => p.1.2) in
    let r := channel_mean region (fun p => p.2) in
    ("#" ++ hex2 r ++ hex2 g ++ hex2 b)%string
  else "#888888"%string.

(** The body of the loop of lines 194-261 (without the preview): the hold
    emitted for one surviving detection, or [None] when it is skipped. *)
Definition assemble_hold (img : image) (confidence : Q) (pred : prediction)
  : option hold :=
  let conf := get (pred_confidence pred) 0%Q in
  if Qlt_le_dec conf confidence then None
  else
    match geometry (img_width img) (img_height img) pred with
    | None => None
    | Some (polygon, center_x, center_y) =>
        Some {| hold_polygon := polygon;
                hold_center := {| pt_x := Py.round center_x 2;
                                  pt_y := Py.round center_y 2 |};
                hold_dominant_color := dominant_color img center_x center_y;
                hold_confidence := Py.round conf 3;
                hold_class := get (pred_class pred) "hold"%string |}
    end.

(** [detected_holds] after the loop. *)
Definition assemble (img : image) (confidence : Q) (predictions : list prediction)
  : list hold :=
  omap (assemble_hold img confidence) predictions.

(** ** The pipeline: [detect_holds]

    [img] is the working image of line 144 (after [cv2.imread] and the
    optional [cv2.resize]); [preview] is [False]. *)

Section Pipeline.

Variable service : nat -> request -> response.

(** The body of the two tile loops, lines 161-184. *)
Definition process_tile (img : image) (api_key : string) (confidence : Q)
    (row col : Z) (all_predictions : list prediction) : M (list prediction) :=
  let '(x1, y1, x2, y2) := tile_bounds (img_width img) (img_height img) row col in
  let tile := crop img y1 y2 x1 x2 in
  predictions <- call_api service tile api_key confidence 3 ;;
  predictions <- lift (adjust_all x1 y1 predictions) ;;
  ret (all_predictions ++ predictions).

Definition collect_predictions (img : image) (api_key : string) (confidence : Q)
  : M (list prediction) :=
  for_each (Py.range tile_rows)
    (fun row acc =>
       for_each (Py.range tile_cols)
         (fun col acc' => process_tile img api_key confidence row col acc')
         acc)
    [].

Definition detect_holds (img : image) (api_key : string) (confidence : Q)
  : M (list hold) :=
  all_predictions <- collect_predictions img api_key confidence ;;
  let predictions := deduplicate_predictions all_predictions 20 in
  ret (assemble img confidence predictions).

End Pipeline.

(** ** Regions and ranges *)

(** The arithmetic mean of the vertices of a polygon, per coordinate. *)
Definition mean_point (polygon : list point) : Q * Q :=
  ((Py.sum (map pt_x polygon) / Py.len polygon)%Q,
   (Py.sum (map pt_y polygon) / Py.len polygon)%Q).

(** Both coordinates of a point are percentages between 0 and 100. *)
Definition percent_in_range (p : point) : Prop :=
  (0 <= pt_x p <= 100)%Q /\ (0 <= pt_y p <= 100)%Q.

(** Every polygon vertex and the center of a hold are in range. *)
Definition hold_in_range (h : hold) : Prop :=
  Forall percent_in_range (hold_polygon h) /\ percent_in_range (hold_center h).

(** A position of the rectangle [0, w] x [0, h]. *)
Definition point_within (w h : Z) (p : point) : Prop :=
  (0 <= pt_x p <= inject_Z w)%Q /\ (0 <= pt_y p <= inject_Z h)%Q.

(** The geometry of a detection lies within a region of size [w] x [h]:
    every vertex of a polygon, both extreme corners of a box. *)
Definition within (w h : Z) (pred : prediction) : Prop :=
  match pred_points pred with
  | Some pts => Forall (point_within w h) pts
  | None =>
      let x := get (pred_x pred) 0%Q in
      let y := get (pred_y pred) 0%Q in
      let bw := get (pred_width pred) 0%Q in
      let bh := get (pred_height pred) 0%Q in
      point_within w h (Point (x - bw / 2) (y - bh / 2))
      /\ point_within w h (Point (x + bw / 2) (y + bh / 2))
  end.

(** Each geometry field of a detection, taken alone, is a value of the
    region's coordinate space: the vertices of a polygon, the center of a
    box and its width and height. *)
Definition fields_within (w h : Z) (pred : prediction) : Prop :=
  match pred_points pred with
  | Some pts => Forall (point_within w h) pts
  | None =>
      point_within w h (Point (get (pred_x pred) 0%Q) (get (pred_y pred) 0%Q))
      /\ point_within w h
           (Point (get (pred_width pred) 0%Q) (get (pred_height pred) 0%Q))
  end.

(** ** The deduplication in the words of the specification

    The marking rule as the specification states it, to compare with the
    loops above: every pair [(i, j)], [i < j], whose centers are closer than
    the threshold marks its lower-confidence member, [j] on equal
    confidences, whatever was marked before. *)

Definition spec_marked (predictions : list prediction) (threshold : Q) (k : nat)
  : bool :=
  let idxs := seq 0 (length predictions) in
  existsb (fun i =>
    existsb (fun j =>
      (i <? j)%nat && close predictions threshold i j
      && (k =? loser predictions i j)%nat) idxs) idxs.

Definition spec_deduplicate (predictions : list prediction) (threshold : Q)
  : list prediction :=
  let predictions := List.filter (fun p => negb (empty_points p)) predictions in
  select predictions
    (map (fun k => negb (spec_marked predictions threshold k))
         (seq 0 (length predictions))).

(** ** Scenarios *)

(** A box-form detection with every box key and a confidence. *)
Definition box_detection (x y w h conf : Q) : prediction :=
  Prediction None (Some x) (Some y) (Some w) (Some h) (Some conf) None.

(** Three detections in a row, 15 pixels apart, of decreasing confidence:
    the first is near the second, the second near the third, the first not
    near the third. *)
Definition chain_a : prediction := box_detection 0 0 4 4 (9 # 10).
Definition chain_b : prediction := box_detection 15 0 4 4 (5 # 10).
Definition chain_c : prediction := box_detection 30 0 4 4 (1 # 10).
Definition chain : list prediction := [chain_a; chain_b; chain_c].

(** An image of one colour. *)
Definition plain_image (height width : Z) : image :=
  Image height width (fun _ _ => (10, 32, 255)).

(** A service that is down, one that recovers at its third request, and one
    that does not know the model. *)
Definition service_down : nat -> request -> response :=
  fun _ _ => Response 503 "Service Unavailable" None.

Definition service_recovers : nat -> request -> response :=
  fun n _ =>
    if (n <? 2)%nat then Response 503 "Service Unavailable" None
    else Response 200 "" (Some [chain_a]).

Definition service_not_found : nat -> request -> response :=
  fun _ _ => Response 404 "Not Found" None.

(** A box whose center and size are within the first tile of a 30 x 30
    image (13 x 13 pixels) but which reaches 3 pixels past its left and
    upper edges, and a service that reports it in its first response, if
    the tile is at least 10 x 10. *)
Definition edge_box : prediction := box_detection 2 2 10 10 (9 # 10).

Definition service_edge_box : nat -> request -> response :=
  fun n req =>
    if (n =? 0)%nat && (10 <=? img_width (req_data req))
       && (10 <=? img_height (req_data req))
    then Response 200 "" (Some [edge_box])
    else Response 200 "" (Some []).

(** A polygon on three corners of the submitted tile, and a service that
    reports it for every tile. *)
Definition corner_triangle (tile : image) : prediction :=
  Prediction
    (Some [ Point 0 0;
            Point (inject_Z (img_width tile)) 0;
            Point 0 (inject_Z (img_height tile)) ])
    None None None None (Some (9 # 10)) None.

Definition service_triangles : nat -> request -> response :=
  fun _ req =>
    if (0 <=? img_width (req_data req)) && (0 <=? img_height (req_data req))
    then Response 200 "" (Some [corner_triangle (req_data req)])
    else Response 200 "" (Some []).

(** A one-pixel box at pixel (1, 1). *)
Definition small_box : prediction := box_detection 1 1 1 1 (9 # 10).

(** ** Notions used by the further properties *)

(** The waits of [k] retries: [2 ** attempt] for the attempts 0 to k - 1. *)
Definition backoff (k : Z) : list Z := map (fun attempt => 2 ^ attempt) (Py.range k).

(** The confidence the deduplicator and the assembler read:
    [pred.get("confidence", 0)]. *)
Definition confidence_of (pred : prediction) : Q := get (pred_confidence pred) 0%Q.

(** The detections left by the filter of line 40. *)
Definition drop_empty (predictions : list prediction) : list prediction :=
  List.filter (fun p => negb (empty_points p)) predictions.


(** One axis of the membership test of a tile: coordinate [v] is between
    the two bounds of grid cell [cell] on an axis of length [size] (lines
    151-165 for one axis). *)
Definition axis_in (size cell v : Z) : bool :=
  let tile_size := size / 3 in
  let margin := Py.int (inject_Z tile_size * overlap) in
  (Z.max 0 (cell * tile_size - margin) <=? v)
  && (v <? Z.min size ((cell + 1) * tile_size + margin)).


(** Lines 236-245: the region of the image from which the color of a hold
    is sampled, up to [sample_size] pixels on each side of the center. *)
Definition sample_region (img : image) (center_x center_y : Q) : image :=
  let width := img_width img in
  let height := img_height img in
  let cx_px := to_pixel center_x width in
  let cy_px := to_pixel center_y height in
  let x1 := Z.max 0 (cx_px - sample_size) in
  let x2 := Z.min width (cx_px + sample_size) in
  let y1 := Z.max 0 (cy_px - sample_size) in
  let y2 := Z.min height (cy_px + sample_size) in
  crop img y1 y2 x1 x2.

(** Every channel of every pixel of the image is a [uint8]. *)
Definition uint8_image (img : image) : Prop :=
  forall y x, 0 <= y < img_height img -> 0 <= x < img_width img ->
    0 <= (img_pixel img y x).1.1 <= 255
    /\ 0 <= (img_pixel img y x).1.2 <= 255
    /\ 0 <= (img_pixel img y x).2 <= 255.

(** A color as a style sheet writes it: [#] and six lower-case hexadecimal
    digits. *)
Definition is_hex_digit (c : Ascii.ascii) : bool :=
  existsb (Ascii.eqb c) (list_ascii_of_string "0123456789abcdef").

Definition is_hex_color (s : string) : bool :=
  match s with
  | String c rest =>
      String.eqb (String c EmptyString) "#" && (String.length rest =? 6)%nat
      && forallb is_hex_digit (list_ascii_of_string rest)
  | EmptyString => false
  end.

(** The filter of the assembler as a test: [conf >= confidence], and the
    polygon, if any, is not empty. *)
Definition emitted (confidence : Q) (pred : prediction) : bool :=
  Qle_bool confidence (confidence_of pred) && negb (empty_points pred).


(** The effects of [n] calls of the client, of at most three attempts each:
    between [n] and [3 n] requests, and one wait, of 1 or 2 seconds, before
    every request that is not the first of its call. *)
Definition after_calls (n : nat) (w w' : world) : Prop :=
  exists added : list Z,
    (posts w + n <= posts w' <= posts w + 3 * n)%nat
    /\ sleeps w' = sleeps w ++ added
    /\ length added = (posts w' - posts w - n)%nat
    /\ Forall (fun s => s = 1 \/ s = 2) added.

(** ** The arithmetic of the script in binary64

    The definitions above idealise Python's [float] as an exact rational.
    Where a property depends on the rounding of binary64, the expressions
    of the script are given again on the primitive floats, which are the
    IEEE 754 binary64 numbers with round-to-nearest-even: Python's [+],
    [-], [*] and [/] on floats are [PrimFloat.add], [sub], [mul] and [div],
    and [<] and [>=] are [PrimFloat.ltb] and [PrimFloat.leb].  [d ** 2] is
    taken as the correctly rounded product [d * d] and [s ** 0.5] as the
    correctly rounded square root. *)

Module B64.

Import Uint63.

(** The float of a Python [int], exact below [2^53]. *)
Definition of_int (z : Z) : float := float_of_int z.

(** The absolute value of a finite float [f] is [M * 2^(e - 2154)], with
    the integer [M] below [2^53] and at least [2^52] unless [f] is zero:
    [decode f] is [(M, e)]. *)
Definition decode (f : float) : PrimInt63.int * PrimInt63.int :=
  let '(m, e) := PrimFloat.frshiftexp f in (PrimFloat.normfr_mantissa m, e).

(** [int(f)] for [0 <= f < 2^53]: the bits of [M] below the binary point
    are dropped. *)
Definition int63 (f : float) : PrimInt63.int :=
  let '(M, e) := decode f in
  if (e <=? 2101)%uint63 then 0%uint63 else (M >> (2154 - e))%uint63.

(** [int(f)]: truncation towards zero. *)
Definition int (f : float) : Z :=
  if (0 <=? f)%float && (f <? 0x1p53)%float then Uint63.to_Z (int63 f)
  else int_of_float f.

(** The integer nearest to [f * 100], ties to the even one, computed on the
    exact value of [f], for [0 <= f < 2^46]: [f * 100] is
    [(M * 100) * 2^-s], and [M * 100] is below [2^60]. *)
Definition hundredths (f : float) : PrimInt63.int :=
  let '(M, e) := decode f in
  let s := (2154 - e)%uint63 in
  if (62 <=? s)%uint63 then 0%uint63
  else
    let num := (M * 100)%uint63 in
    let q := (num >> s)%uint63 in
    let r := (num - (q << s))%uint63 in
    let half := (1 << (s - 1))%uint63 in
    if (r <? half)%uint63 then q
    else if (half <? r)%uint63 then (q + 1)%uint63
    else if (q land 1 =? 0)%uint63 then q else (q + 1)%uint63.

(** [round(f, 2)]: CPython rounds the exact value of [f] to 2 decimals,
    half to even, and returns the float nearest to that decimal, which is
    the correctly rounded quotient of the hundredths by 100.  From [2^46] on
    the floats are more than 0.01 apart and [f] is returned; so are the
    infinities and NaN. *)
Definition round2 (f : float) : float :=
  if PrimFloat.is_nan f || PrimFloat.is_infinity f then f
  else if (PrimFloat.abs f <? 0x1p46)%float then
    let r := (PrimFloat.of_uint63 (hundredths (PrimFloat.abs f)) / 100)%float in
    if PrimFloat.get_sign f then (- r)%float else r
  else f.

(** [(v / dim) * 100] *)
Definition to_percent (v : float) (dim : Z) : float :=
  (v / of_int dim * 100)%float.

(** [int((percent / 100) * dim)] *)
Definition to_pixel (percent : float) (dim : Z) : Z :=
  int (percent / 100 * of_int dim)%float.

(** The test that the round trip of pixel [x] on an axis of [dim] pixels is
    [x - 1], [x] or [x + 1], on machine integers. *)
Definition round_trip_ok (x dim : PrimInt63.int) : bool :=
  let fdim := PrimFloat.of_uint63 dim in
  let v := (round2 (PrimFloat.of_uint63 x / fdim * 100) / 100 * fdim)%float in
  (0 <=? v)%float && (v <? 0x1p53)%float
  && ((int63 v =? x)%uint63 || (int63 v =? x + 1)%uint63
      || ((0 <? x)%uint63 && (int63 v =? x - 1)%uint63)).

(** [P] holds of the [fuel] integers from [a] on; [c] is [a] as a machine
    integer. *)
Fixpoint all_from (fuel : nat) (a : Z) (c : PrimInt63.int)
    (P : Z -> PrimInt63.int -> bool) : bool :=
  match fuel with
  | O => true
  | S fuel' => P a c && all_from fuel' (a + 1) (c + 1)%uint63 P
  end.

(** The exact value of a finite float. *)
Definition value (f : float) : Q :=
  match Prim2SF f with
  | S754_finite s m e =>
      let q := (inject_Z (Zpos m) * 2 ^ e)%Q in
      if s then (- q)%Q else q
  | _ => 0%Q
  end.

(** *** The deduplicator in binary64

    The keys that [deduplicate_predictions] reads, with float values. *)
Record fpoint := FPoint { fpt_x : float; fpt_y : float }.

Record fprediction := FPrediction {
  fpred_points : option (list fpoint);   (* "points" *)
  fpred_x : option float;                (* "x" *)
  fpred_y : option float;                (* "y" *)
  fpred_confidence : option float        (* "confidence" *)
}.

#[global] Instance float_inhabited : Inhabited float := populate 0%float.
#[global] Instance fprediction_inhabited : Inhabited fprediction :=
  populate (FPrediction None None None None).

Definition empty_points (p : fprediction) : bool :=
  match fpred_points p with
  | Some [] => true
  | _ => false
  end.

(** [sum(xs)], adding from the left ([sum] of Python 3.12 and later
    compensates the rounding errors of the additions; the properties
    stated below do not depend on the sum), and [len(xs)] as a float. *)
Definition sum (xs : list float) : float := fold_left PrimFloat.add xs 0%float.
Definition len {A} (xs : list A) : float := of_int (Z.of_nat (length xs)).

Definition center_of (pred : fprediction) : float * float :=
  match fpred_points pred with
  | Some pts =>
      ((sum (map fpt_x pts) / len pts)%float,
       (sum (map fpt_y pts) / len pts)%float)
  | None => (get (fpred_x pred) 0%float, get (fpred_y pred) 0%float)
  end.

(** [((ci[0] - cj[0]) ** 2 + (ci[1] - cj[1]) ** 2) ** 0.5] *)
Definition dist (ci cj : float * float) : float :=
  PrimFloat.sqrt ((ci.1 - cj.1) * (ci.1 - cj.1)
                  + (ci.2 - cj.2) * (ci.2 - cj.2))%float.

(** [dist < threshold] *)
Definition near (ci cj : float * float) (threshold : float) : bool :=
  (dist ci cj <? threshold)%float.

Section Loops.

Variable predictions : list fprediction.
Variable threshold : float.

Definition centers : list (float * float) := map center_of predictions.

Definition close (i j : nat) : bool :=
  near (centers !!! i) (centers !!! j) threshold.

Definition conf_ge (i j : nat) : bool :=
  (get (fpred_confidence (predictions !!! j)) 0
   <=? get (fpred_confidence (predictions !!! i)) 0)%float.

Fixpoint inner_loop (i : nat) (js : list nat) (keep : list bool) : list bool :=
  match js with
  | [] => keep
  | j :: js' =>
      if negb (keep !!! j) then inner_loop i js' keep
      else if close i j then
        if conf_ge i j then inner_loop i js' (<[j := false]> keep)
        else <[i := false]> keep
      else inner_loop i js' keep
  end.

Fixpoint outer_loop (idxs : list nat) (keep : list bool) : list bool :=
  match idxs with
  | [] => keep
  | i :: idxs' =>
      if negb (keep !!! i) then outer_loop idxs' keep
      else outer_loop idxs'
             (inner_loop i (seq (S i) (length predictions - S i)) keep)
  end.

Definition final_keep : list bool :=
  outer_loop (seq 0 (length predictions)) (replicate (length predictions) true).

End Loops.

Definition select (predictions : list fprediction) (keep : list bool)
  : list fprediction :=
  map fst (List.filter snd (zip predictions keep)).

Definition deduplicate_predictions (predictions : list fprediction)
    (threshold : float) : list fprediction :=
  match predictions with
  | [] => []
  | _ =>
      let predictions := List.filter (fun p => negb (empty_points p)) predictions in
      select predictions (final_keep predictions threshold)
  end.

(** A box-form detection with a center and a confidence. *)
Definition box (x y conf : float) : fprediction :=
  FPrediction None (Some x) (Some y) (Some conf).

End B64.

(** Two boxes whose centers are [20 - 2^-52] pixels apart: the difference
    of the abscissas rounds to 20. *)
Definition close_box_a : B64.fprediction := B64.box 0x1p-52 0 0.75.
Definition close_box_b : B64.fprediction := B64.box 20 0 0.5.

(** Three boxes in a row, 15 pixels apart; the second is near the first. *)
Definition row_of_boxes : list B64.fprediction :=
  [B64.box 0 0 0.75; B64.box 15 0 0.5; B64.box 30 0 0.25].

(** [n] requests and no wait between the worlds [w] and [w']. *)
Definition calls_without_wait (n : nat) (w w' : world) : Prop :=
  posts w' = (posts w + n)%nat /\ sleeps w' = sleeps w.

(** The exception is not the API error of [call_api]. *)
Definition not_api_error (e : exn) : Prop :=
  forall status text, e <> APIError status text.

(** * Properties *)

(** ** Detection client *)

Section ClientFacts.

Variable service : nat -> request -> response.

(** One iteration of the retry loop, by the status of the response. *)
Lemma call_api_loop_ok req max_retries attempt attempts w :
  status_code (service (posts w) req) = 200 ->
  call_api_loop service req max_retries (attempt :: attempts) w
  = (Return (get (json_predictions (service (posts w) req)) []),
     {| posts := S (posts w); sleeps := sleeps w |}).
Proof.
  intros Hs. cbn [call_api_loop]. unfold bind, post, ret. cbn.
  rewrite Hs. reflexivity.
Qed.

Lemma call_api_loop_retry req max_retries attempt attempts w :
  status_code (service (posts w) req) <> 200 ->
  500 <= status_code (service (posts w) req) ->
  attempt < max_retries - 1 ->
  call_api_loop service req max_retries (attempt :: attempts) w
  = call_api_loop service req max_retries attempts
      {| posts := S (posts w); sleeps := sleeps w ++ [2 ^ attempt] |}.
Proof.
  intros Hne Hge Hlt. cbn [call_api_loop]. unfold bind, post, sleep. cbn.
  destruct (Z.eqb_spec (status_code (service (posts w) req)) 200); [contradiction|].
  destruct (Z.leb_spec 500 (status_code (service (posts w) req))); [|lia].
  destruct (Z.ltb_spec attempt (max_retries - 1)); [|lia].
  reflexivity.
Qed.

Lemma call_api_loop_raise req max_retries attempt attempts w :
  status_code (service (posts w) req) <> 200 ->
  status_code (service (posts w) req) < 500 \/ max_retries - 1 <= attempt ->
  call_api_loop service req max_retries (attempt :: attempts) w
  = (Raise (APIError (status_code (service (posts w) req))
                     (text (service (posts w) req))),
     {| posts := S (posts w); sleeps := sleeps w |}).
Proof.
  intros Hne Hor. cbn [call_api_loop]. unfold bind, post, raise. cbn.
  destruct (Z.eqb_spec (status_code (service (posts w) req)) 200); [contradiction|].
  destruct (Z.leb_spec 500 (status_code (service (posts w) req)));
    destruct (Z.ltb_spec attempt (max_retries - 1)); cbn; try reflexivity; lia.
Qed.

(** Three server errors in a row: two waits, then the error is raised. *)
Lemma call_api_three_5xx tile api_key confidence w :
  let req := api_request tile api_key confidence in
  (forall n, (posts w <= n < posts w + 3)%nat -> 500 <= status_code (service n req)) ->
  call_api service tile api_key confidence 3 w
  = (Raise (APIError (status_code (service (posts w + 2)%nat req))
                     (text (service (posts w + 2)%nat req))),
     {| posts := (posts w + 3)%nat; sleeps := sleeps w ++ [1; 2] |}).
Proof.
  intros req H. unfold call_api. fold req.
  change (Py.range 3) with [0; 1; 2].
  pose proof (H (posts w) ltac:(lia)) as H0.
  pose proof (H (S (posts w)) ltac:(lia)) as H1.
  pose proof (H (S (S (posts w))) ltac:(lia)) as H2.
  rewrite call_api_loop_retry by lia.
  rewrite call_api_loop_retry by (cbn [posts]; lia).
  rewrite call_api_loop_raise by (cbn [posts]; lia).
  cbn [posts sleeps].
  replace (posts w + 2)%nat with (S (S (posts w))) by lia.
  replace (posts w + 3)%nat with (S (S (S (posts w)))) by lia.
  rewrite <- app_assoc. reflexivity.
Qed.

End ClientFacts.

(** ** Deduplicator *)

(** A flag that is [True] after an assignment of [False] was [True] before,
    and is not the assigned one. *)
Lemma insert_false_kept (keep : list bool) (j k : nat) :
  <[j := false]> keep !! k = Some true -> keep !! k = Some true /\ k <> j.
Proof.
  intros H. apply list_lookup_insert_Some in H.
  destruct H as [(_ & Hft & _) | (Hne & Hk)]; [discriminate|].
  split; [assumption | congruence].
Qed.

Lemma lookup_total_kept (keep : list bool) (k : nat) :
  keep !! k = Some true -> keep !!! k = true.
Proof. intros H. by apply list_lookup_total_correct. Qed.

Lemma lookup_kept_cases (keep : list bool) (k : nat) :
  (k < length keep)%nat -> keep !! k = Some true \/ keep !! k = Some false.
Proof.
  intros Hlt. destruct (lookup_lt_is_Some_2 keep k Hlt) as [[] Hb]; auto.
Qed.

Section DedupFacts.

Variable predictions : list prediction.
Variable threshold : Q.

Local Abbreviation inner := (inner_loop predictions threshold).
Local Abbreviation outer := (outer_loop predictions threshold).
Local Abbreviation near := (close predictions threshold).

Lemma inner_loop_length i js keep : length (inner i js keep) = length keep.
Proof.
  revert keep. induction js as [|j js IH]; intros keep; cbn; [done|].
  repeat case_match; rewrite ?IH, ?length_insert; done.
Qed.

(** The loops only ever clear flags. *)
Lemma inner_loop_mono i js keep k :
  inner i js keep !! k = Some true -> keep !! k = Some true.
Proof.
  revert keep. induction js as [|j js IH]; intros keep; cbn; [done|].
  repeat case_match; intros Hk; auto.
  - apply IH in Hk. by apply insert_false_kept in Hk as [? _].
  - by apply insert_false_kept in Hk as [? _].
Qed.

Lemma outer_loop_length idxs keep : length (outer idxs keep) = length keep.
Proof.
  revert keep. induction idxs as [|i idxs IH]; intros keep; cbn; [done|].
  case_match; rewrite IH, ?inner_loop_length; done.
Qed.

Lemma outer_loop_mono idxs keep k :
  outer idxs keep !! k = Some true -> keep !! k = Some true.
Proof.
  revert keep. induction idxs as [|i idxs IH]; intros keep; cbn; [done|].
  case_match; intros Hk; apply IH in Hk; eauto using inner_loop_mono.
Qed.

(** After the inner loop of [i], if [i] is still kept, every later
    detection of the range that is still kept is not near [i]. *)
Lemma inner_loop_separates i js keep :
  inner i js keep !! i = Some true ->
  forall j, j ∈ js -> inner i js keep !! j = Some true -> near i j = false.
Proof.
  revert keep. induction js as [|j0 js IH]; intros keep Hi j Hj Hkj.
  { by apply elem_of_nil in Hj. }
  cbn in Hi, Hkj. apply elem_of_cons in Hj.
  destruct (negb (keep !!! j0)) eqn:Hskip.
  { destruct Hj as [->|Hj]; [|by eapply IH].
    apply inner_loop_mono, lookup_total_kept in Hkj.
    rewrite Hkj in Hskip. discriminate. }
  destruct (near i j0) eqn:Hnear.
  - destruct (conf_ge predictions i j0).
    + destruct Hj as [->|Hj]; [|by eapply IH].
      apply inner_loop_mono, insert_false_kept in Hkj. by destruct Hkj.
    + apply insert_false_kept in Hi. by destruct Hi.
  - destruct Hj as [->|Hj]; [done|by eapply IH].
Qed.

Lemma outer_loop_separates idxs keep i j :
  i ∈ idxs -> (i < j < length predictions)%nat ->
  outer idxs keep !! i = Some true -> outer idxs keep !! j = Some true ->
  near i j = false.
Proof.
  revert keep. induction idxs as [|i0 idxs IH]; intros keep Hin Hij Hi Hj.
  { by apply elem_of_nil in Hin. }
  cbn in Hi, Hj. apply elem_of_cons in Hin.
  destruct (negb (keep !!! i0)) eqn:Hskip.
  { destruct Hin as [->|Hin]; [|by eapply IH].
    apply outer_loop_mono, lookup_total_kept in Hi.
    rewrite Hi in Hskip. discriminate. }
  destruct Hin as [->|Hin]; [|by eapply IH].
  apply outer_loop_mono in Hi, Hj.
  eapply inner_loop_separates; [exact Hi| |exact Hj].
  apply elem_of_seq. lia.
Qed.

Lemma final_keep_length :
  length (final_keep predictions threshold) = length predictions.
Proof. unfold final_keep. by rewrite outer_loop_length, length_replicate. Qed.

(** Two detections that are both kept at the end are not near each other. *)
Lemma final_keep_separates i j :
  (i < j < length predictions)%nat ->
  final_keep predictions threshold !! i = Some true ->
  final_keep predictions threshold !! j = Some true ->
  near i j = false.
Proof.
  intros Hij. apply outer_loop_separates; [|done].
  apply elem_of_seq. lia.
Qed.

(** Where no pair is near, the loops change nothing. *)
Lemma inner_loop_id i js keep :
  (forall j, j ∈ js -> near i j = false) -> inner i js keep = keep.
Proof.
  revert keep. induction js as [|j js IH]; intros keep H; cbn; [done|].
  rewrite (H j) by apply list_elem_of_here.
  assert (inner i js keep = keep) as ->
    by (apply IH; intros; apply H; by apply list_elem_of_further).
  by destruct (negb _).
Qed.

Lemma outer_loop_id idxs keep :
  (forall i j, (i < j < length predictions)%nat -> near i j = false) ->
  outer idxs keep = keep.
Proof.
  intros H. revert keep. induction idxs as [|i idxs IH]; intros keep; cbn; [done|].
  rewrite inner_loop_id, IH; [by destruct (negb _)|].
  intros j Hj. apply elem_of_seq in Hj. apply H. lia.
Qed.

End DedupFacts.

(** *** The selection by [keep] *)

Lemma select_cons p ps (k : bool) ks :
  select (p :: ps) (k :: ks) = if k then p :: select ps ks else select ps ks.
Proof. unfold select. cbn. by destruct k. Qed.

Lemma select_nil_r ps : select ps [] = [].
Proof. by destruct ps. Qed.

(** Every selected detection sits at a kept index of the input. *)
Lemma select_lookup ps keep a pa :
  select ps keep !! a = Some pa ->
  exists i, ps !! i = Some pa /\ keep !! i = Some true.
Proof.
  revert keep a. induction ps as [|p ps IH]; intros keep a H; [done|].
  destruct keep as [|k ks]; [by rewrite select_nil_r in H|].
  rewrite select_cons in H. destruct k.
  - destruct a as [|a]; cbn in H.
    + exists 0%nat. by simplify_eq.
    + destruct (IH _ _ H) as (i & ? & ?). by exists (S i).
  - destruct (IH _ _ H) as (i & ? & ?). by exists (S i).
Qed.

(** The selection preserves the order of the input. *)
Lemma select_lookup_ordered ps keep a b pa pb :
  (a < b)%nat ->
  select ps keep !! a = Some pa -> select ps keep !! b = Some pb ->
  exists i j, (i < j)%nat /\
    ps !! i = Some pa /\ keep !! i = Some true /\
    ps !! j = Some pb /\ keep !! j = Some true.
Proof.
  revert keep a b. induction ps as [|p ps IH]; intros keep a b Hab Ha Hb; [done|].
  destruct keep as [|k ks]; [by rewrite select_nil_r in Ha|].
  rewrite select_cons in Ha, Hb. destruct k.
  - destruct b as [|b]; [lia|]. cbn in Hb. destruct a as [|a]; cbn in Ha.
    + destruct (select_lookup _ _ _ _ Hb) as (j & ? & ?).
      exists 0%nat, (S j). simplify_eq. repeat split; auto; lia.
    + destruct (IH ks a b ltac:(lia) Ha Hb) as (i & j & ? & ? & ? & ? & ?).
      exists (S i), (S j). repeat split; auto; lia.
  - destruct (IH ks a b Hab Ha Hb) as (i & j & ? & ? & ? & ? & ?).
    exists (S i), (S j). repeat split; auto; lia.
Qed.

Lemma select_all ps : select ps (replicate (length ps) true) = ps.
Proof.
  induction ps as [|p ps IH]; [done|].
  cbn [length replicate]. rewrite select_cons. by f_equal.
Qed.

Lemma filter_id {A} (f : A -> bool) (l : list A) :
  (forall x, x ∈ l -> f x = true) -> List.filter f l = l.
Proof.
  induction l as [|x l IH]; intros H; cbn; [done|].
  rewrite (H x) by apply list_elem_of_here.
  f_equal. apply IH. intros y Hy. apply H. by apply list_elem_of_further.
Qed.

Lemma centers_lookup ps i p :
  ps !! i = Some p -> centers ps !!! i = center_of p.
Proof.
  intros H. apply list_lookup_total_correct.
  unfold centers. change (map center_of ps) with (center_of <$> ps).
  by rewrite list_lookup_fmap, H.
Qed.

(** *** Survivors *)

(** The output never holds a detection with an empty polygon. *)
Lemma dedup_no_empty predictions threshold p :
  p ∈ deduplicate_predictions predictions threshold -> empty_points p = false.
Proof.
  unfold deduplicate_predictions. destruct predictions as [|p0 ps].
  { intros H. by apply elem_of_nil in H. }
  intros H. apply list_elem_of_lookup in H as [a Ha].
  apply select_lookup in Ha as (i & Hi & _).
  apply list_elem_of_lookup_2, list_elem_of_In, filter_In in Hi as [_ Hi].
  by apply negb_true_iff in Hi.
Qed.

(** Two survivors, in output order, fail the distance test of line 64. *)
Lemma dedup_survivors_apart predictions threshold a b pa pb :
  (a < b)%nat ->
  deduplicate_predictions predictions threshold !! a = Some pa ->
  deduplicate_predictions predictions threshold !! b = Some pb ->
  dist_lt (center_of pa) (center_of pb) threshold = false.
Proof.
  unfold deduplicate_predictions. destruct predictions as [|p0 ps]; [done|].
  set (l := List.filter _ _). intros Hab Ha Hb.
  destruct (select_lookup_ordered _ _ _ _ _ _ Hab Ha Hb)
    as (i & j & Hij & Hpi & Hki & Hpj & Hkj).
  pose proof (lookup_lt_Some _ _ _ Hpj) as Hj.
  pose proof (final_keep_separates l threshold i j ltac:(lia) Hki Hkj) as H.
  unfold close in H.
  by rewrite (centers_lookup _ _ _ Hpi), (centers_lookup _ _ _ Hpj) in H.
Qed.

(** A list without empty polygons in which no earlier detection is near a
    later one is returned as it is. *)
Lemma dedup_fixed ps threshold :
  (forall p, p ∈ ps -> empty_points p = false) ->
  (forall a b pa pb, (a < b)%nat -> ps !! a = Some pa -> ps !! b = Some pb ->
     dist_lt (center_of pa) (center_of pb) threshold = false) ->
  deduplicate_predictions ps threshold = ps.
Proof.
  intros Hne Hfar. unfold deduplicate_predictions.
  destruct ps as [|p0 ps0] eqn:E; [done|]. rewrite <- E in *. clear E.
  rewrite filter_id by (intros x Hx; by rewrite (Hne x Hx)).
  unfold final_keep. rewrite outer_loop_id; [apply select_all|].
  intros i j Hij. unfold close.
  destruct (lookup_lt_is_Some_2 ps i ltac:(lia)) as [pa Ha].
  destruct (lookup_lt_is_Some_2 ps j ltac:(lia)) as [pb Hb].
  rewrite (centers_lookup _ _ _ Ha), (centers_lookup _ _ _ Hb).
  apply (Hfar i j pa pb); [lia|done|done].
Qed.

(** ** The distance test *)

Ltac qlra := Lqa.lra.
Ltac qnra := Lqa.nra.
Ltac rlra := Lra.lra.
Ltac rnra := Lra.nra.

Lemma sqrt_lt_true s t :
  Py.sqrt_lt s t = true <-> (0 < t /\ s < t * t)%Q.
Proof.
  unfold Py.sqrt_lt.
  destruct (Qlt_le_dec 0 t); [destruct (Qlt_le_dec s (t * t))|];
    split; intros H; try done; try destruct H; qlra.
Qed.

Lemma sqrt_lt_false s t :
  Py.sqrt_lt s t = false <-> (t <= 0 \/ t * t <= s)%Q.
Proof.
  unfold Py.sqrt_lt.
  destruct (Qlt_le_dec 0 t); [destruct (Qlt_le_dec s (t * t))|];
    split; intros H; try done; auto; destruct H; qlra.
Qed.

(** On a non-negative [s] the test is the comparison of the real square
    root of [s] with [t]. *)
Lemma sqrt_lt_spec s t :
  (0 <= s)%Q -> Py.sqrt_lt s t = true <-> (sqrt (Q2R s) < Q2R t)%R.
Proof.
  intros Hs. apply Qle_Rle in Hs. rewrite RMicromega.Q2R_0 in Hs.
  rewrite sqrt_lt_true. split.
  - intros [Ht Hlt]. apply Qlt_Rlt in Ht, Hlt.
    rewrite RMicromega.Q2R_0 in Ht. rewrite Q2R_mult in Hlt.
    rewrite <- (sqrt_square (Q2R t)) by rlra.
    apply sqrt_lt_1; [rlra | rnra | rlra].
  - intros H. pose proof (sqrt_pos (Q2R s)) as Hp.
    pose proof (sqrt_sqrt (Q2R s) Hs) as Hss.
    split.
    + apply Rlt_Qlt. rewrite RMicromega.Q2R_0. rlra.
    + apply Rlt_Qlt. rewrite Q2R_mult. rewrite <- Hss. rnra.
Qed.

Lemma sq_dist_nonneg ci cj : (0 <= sq_dist ci cj)%Q.
Proof.
  unfold sq_dist. simpl.
  generalize (ci.1 - cj.1)%Q (ci.2 - cj.2)%Q. intros dx dy. qnra.
Qed.

Lemma sq_dist_sym ci cj : (sq_dist ci cj == sq_dist cj ci)%Q.
Proof. unfold sq_dist. simpl. ring. Qed.

Lemma dist_lt_sym ci cj t : dist_lt ci cj t = dist_lt cj ci t.
Proof.
  unfold dist_lt. pose proof (sq_dist_sym ci cj) as E.
  destruct (Py.sqrt_lt (sq_dist cj ci) t) eqn:H.
  - apply sqrt_lt_true. apply sqrt_lt_true in H. rewrite E. exact H.
  - apply sqrt_lt_false. apply sqrt_lt_false in H. rewrite E. exact H.
Qed.

(** A failed test means that the Euclidean distance of the two centers is
    at least the threshold. *)
Lemma dist_lt_false_real ci cj t :
  dist_lt ci cj t = false -> (Q2R t <= sqrt (Q2R (sq_dist ci cj)))%R.
Proof.
  intros H. apply Rnot_lt_le. intros Hlt.
  apply sqrt_lt_spec in Hlt; [|apply sq_dist_nonneg].
  unfold dist_lt in H. congruence.
Qed.

(** *** Which pairs are compared, and what a comparison marks *)

Lemma seq_split_at a m l1 j l2 :
  seq a m = l1 ++ j :: l2 -> l1 = seq a (j - a) /\ (a <= j < a + m)%nat.
Proof.
  revert a m. induction l1 as [|x l1 IH]; intros a m H.
  - destruct m as [|m]; [done|]. cbn in H. injection H as -> _.
    rewrite Nat.sub_diag. split; [done|lia].
  - destruct m as [|m]; [done|]. cbn in H. injection H as <- Htl.
    destruct (IH _ _ Htl) as [IH1 IH2].
    replace (j - a)%nat with (S (j - S a)) by lia.
    cbn. split; [by f_equal|lia].
Qed.

Section ComparedPairs.

Variable predictions : list prediction.
Variable threshold : Q.

Local Abbreviation inner := (inner_loop predictions threshold).
Local Abbreviation outer := (outer_loop predictions threshold).
Local Abbreviation near := (close predictions threshold).
Local Abbreviation final := (final_keep predictions threshold).
Local Abbreviation all_kept := (replicate (length predictions) true).

Lemma outer_loop_app l1 l2 keep :
  outer (l1 ++ l2) keep = outer l2 (outer l1 keep).
Proof.
  revert keep. induction l1 as [|i l1 IH]; intros keep; cbn; [done|].
  by destruct (negb _).
Qed.

(** While the inner loop has not left by [break], it composes. *)
Lemma inner_loop_app i l1 l2 keep :
  inner i l1 keep !! i = Some true ->
  inner i (l1 ++ l2) keep = inner i l2 (inner i l1 keep).
Proof.
  revert keep. induction l1 as [|j l1 IH]; intros keep Hi; cbn in *; [done|].
  destruct (negb (keep !!! j)); [by apply IH|].
  destruct (near i j); [|by apply IH].
  destruct (conf_ge predictions i j); [by apply IH|].
  apply insert_false_kept in Hi. by destruct Hi.
Qed.

(** A cleared flag stays cleared. *)
Lemma inner_loop_cleared i js keep x :
  keep !! x = Some false -> inner i js keep !! x = Some false.
Proof.
  intros H. pose proof (lookup_lt_Some _ _ _ H) as Hlt.
  rewrite <- (inner_loop_length predictions threshold i js) in Hlt.
  destruct (lookup_kept_cases _ _ Hlt) as [Ht|]; [|done].
  apply inner_loop_mono in Ht. congruence.
Qed.

Lemma outer_loop_cleared idxs keep x :
  keep !! x = Some false -> outer idxs keep !! x = Some false.
Proof.
  intros H. pose proof (lookup_lt_Some _ _ _ H) as Hlt.
  rewrite <- (outer_loop_length predictions threshold idxs) in Hlt.
  destruct (lookup_kept_cases _ _ Hlt) as [Ht|]; [|done].
  apply outer_loop_mono in Ht. congruence.
Qed.

Lemma keep_before_length i j :
  length (keep_before predictions threshold i j) = length predictions.
Proof.
  unfold keep_before.
  by rewrite inner_loop_length, outer_loop_length, length_replicate.
Qed.

(** A compared pair of near detections clears the flag of its loser, for
    good. *)
Lemma compared_pair_marks i j :
  (i < j < length predictions)%nat ->
  compared predictions threshold i j -> near i j = true ->
  final !! loser predictions i j = Some false.
Proof.
  intros Hij [Hi Hj] Hnear. unfold final_keep.
  replace (length predictions) with (i + S (length predictions - S i))%nat at 1 by lia.
  rewrite seq_app, outer_loop_app. cbn [seq outer_loop Nat.add].
  rewrite ?Nat.add_0_l.
  set (Oi := outer (seq 0 i) all_kept).
  assert (Oi !! i = Some true) as HOi by (by apply inner_loop_mono in Hi).
  rewrite (lookup_total_kept _ _ HOi). cbn [negb].
  apply outer_loop_cleared.
  replace (length predictions - S i)%nat
    with ((j - S i) + S (length predictions - S j))%nat by lia.
  rewrite seq_app. rewrite inner_loop_app by exact Hi.
  replace (S i + (j - S i))%nat with j by lia.
  change (inner i (seq (S i) (j - S i)) Oi)
    with (keep_before predictions threshold i j).
  cbn [seq inner_loop]. rewrite (lookup_total_kept _ _ Hj). cbn [negb].
  rewrite Hnear. unfold loser.
  assert (i < length (keep_before predictions threshold i j))%nat
    by (rewrite keep_before_length; lia).
  assert (j < length (keep_before predictions threshold i j))%nat
    by (rewrite keep_before_length; lia).
  destruct (conf_ge predictions i j).
  - apply inner_loop_cleared. by apply list_lookup_insert_eq.
  - by apply list_lookup_insert_eq.
Qed.

(** Every flag the inner loop of [i] clears is the loser of a compared
    pair; [l1] is the part of the range already passed. *)
Lemma inner_loop_lost i l2 :
  forall l1 keep,
    seq (S i) (length predictions - S i) = l1 ++ l2 ->
    keep = inner i l1 (outer (seq 0 i) all_kept) ->
    keep !! i = Some true ->
    (forall x, keep !! x = Some false -> lost predictions threshold x) ->
    forall x, inner i l2 keep !! x = Some false -> lost predictions threshold x.
Proof.
  induction l2 as [|j l2 IH]; intros l1 keep Hseq Hkeep Hi Hinv x Hx;
    cbn in Hx; [by apply Hinv|].
  destruct (seq_split_at _ _ _ _ _ Hseq) as [Hl1 Hj].
  assert (keep = keep_before predictions threshold i j) as Hkb
    by (by rewrite Hkeep, Hl1).
  assert (length keep = length predictions) as Hlen
    by (rewrite Hkb; apply keep_before_length).
  assert (forall keep', keep' = inner i [j] keep ->
            keep' = inner i (l1 ++ [j]) (outer (seq 0 i) all_kept)) as Hsnoc.
  { intros keep' ->. rewrite inner_loop_app; by rewrite <- Hkeep. }
  assert (seq (S i) (length predictions - S i) = (l1 ++ [j]) ++ l2) as Hseq'
    by (by rewrite <- app_assoc).
  destruct (negb (keep !!! j)) eqn:Hskip.
  { eapply (IH _ keep Hseq'); eauto. apply Hsnoc. cbn. by rewrite Hskip. }
  assert (keep !! j = Some true) as Hkj.
  { destruct (lookup_kept_cases keep j ltac:(lia)) as [|Hf]; [done|].
    apply list_lookup_total_correct in Hf. rewrite Hf in Hskip. done. }
  assert (compared predictions threshold i j) as Hcmp
    by (unfold compared; by rewrite <- Hkb).
  destruct (near i j) eqn:Hnear.
  - assert (lost predictions threshold (loser predictions i j)) as Hlost
      by (exists i, j; split; [lia|]; split; [exact Hcmp|]; by split).
    unfold loser in Hlost.
    destruct (conf_ge predictions i j) eqn:Hconf.
    + eapply (IH _ (<[j := false]> keep) Hseq'); eauto.
      * apply Hsnoc. cbn. by rewrite Hskip, Hnear, Hconf.
      * rewrite list_lookup_insert_ne by lia. done.
      * intros y Hy. apply list_lookup_insert_Some in Hy.
        destruct Hy as [(<- & _ & _)|(_ & Hy)]; [done|by apply Hinv].
    + apply list_lookup_insert_Some in Hx.
      destruct Hx as [(<- & _ & _)|(_ & Hx)]; [done|by apply Hinv].
  - eapply (IH _ keep Hseq'); eauto.
    apply Hsnoc. cbn. by rewrite Hskip, Hnear.
Qed.

Lemma outer_loop_lost l2 :
  forall l1 keep,
    seq 0 (length predictions) = l1 ++ l2 ->
    keep = outer l1 all_kept ->
    (forall x, keep !! x = Some false -> lost predictions threshold x) ->
    forall x, outer l2 keep !! x = Some false -> lost predictions threshold x.
Proof.
  induction l2 as [|i l2 IH]; intros l1 keep Hseq Hkeep Hinv x Hx;
    cbn in Hx; [by apply Hinv|].
  destruct (seq_split_at _ _ _ _ _ Hseq) as [Hl1 Hi].
  rewrite Nat.sub_0_r in Hl1.
  assert (length keep = length predictions) as Hlen
    by (by rewrite Hkeep, outer_loop_length, length_replicate).
  assert (forall keep', keep' = outer [i] keep ->
            keep' = outer (l1 ++ [i]) all_kept) as Hsnoc
    by (intros keep' ->; by rewrite outer_loop_app, <- Hkeep).
  assert (seq 0 (length predictions) = (l1 ++ [i]) ++ l2) as Hseq'
    by (by rewrite <- app_assoc).
  destruct (negb (keep !!! i)) eqn:Hskip.
  { eapply (IH _ keep Hseq'); eauto. apply Hsnoc. cbn. by rewrite Hskip. }
  assert (keep !! i = Some true) as Hki.
  { destruct (lookup_kept_cases keep i ltac:(lia)) as [|Hf]; [done|].
    apply list_lookup_total_correct in Hf. rewrite Hf in Hskip. done. }
  eapply (IH _ _ Hseq'); [|  |exact Hx].
  - apply Hsnoc. cbn. by rewrite Hskip.
  - apply (inner_loop_lost i _ [] keep); auto.
    cbn. by rewrite Hkeep, Hl1.
Qed.

(** A flag is cleared at the end exactly when its detection lost a
    comparison. *)
Lemma final_keep_cleared_iff x :
  final !! x = Some false <-> lost predictions threshold x.
Proof.
  split.
  - apply (outer_loop_lost _ [] all_kept); auto.
    intros y Hy. apply lookup_replicate in Hy. by destruct Hy.
  - intros (i & j & Hij & Hcmp & Hnear & ->).
    by apply compared_pair_marks.
Qed.

End ComparedPairs.

(** ** Claims on the detection client *)

(** C1, as amended.  When the three attempts of a tile request all get a
    server error (status 500 or above), [call_api] sleeps 1 s and 2 s after
    the first two and raises the API error of the third response; it does
    not return an empty list.  The exception leaves [process_tile] for any
    tile, and a run whose first three responses are server errors ends with
    that exception. *)
Theorem exhausted_retries_raise service img api_key confidence w :
  (forall n req, (posts w <= n < posts w + 3)%nat ->
                 500 <= status_code (service n req)) ->
  let last req := service (posts w + 2)%nat req in
  let error req := APIError (status_code (last req)) (text (last req)) in
  let w' := {| posts := (posts w + 3)%nat; sleeps := sleeps w ++ [1; 2] |} in
  (forall tile,
     call_api service tile api_key confidence 3 w
     = (Raise (error (api_request tile api_key confidence)), w')) /\
  (forall row col acc, exists tile,
     process_tile service img api_key confidence row col acc w
     = (Raise (error (api_request tile api_key confidence)), w')) /\
  (exists tile,
     detect_holds service img api_key confidence w
     = (Raise (error (api_request tile api_key confidence)), w')).
Proof.
  intros H last error w'.
  assert (forall tile,
     call_api service tile api_key confidence 3 w
     = (Raise (error (api_request tile api_key confidence)), w')) as Hcall.
  { intros tile. apply call_api_three_5xx. intros n Hn. by apply H. }
  assert (forall row col acc, exists tile,
     process_tile service img api_key confidence row col acc w
     = (Raise (error (api_request tile api_key confidence)), w')) as Htile.
  { intros row col acc. unfold process_tile.
    destruct (tile_bounds _ _ row col) as [[[x1 y1] x2] y2].
    exists (crop img y1 y2 x1 x2). unfold bind. by rewrite Hcall. }
  split; [exact Hcall|]. split; [exact Htile|].
  destruct (Htile 0 0 []) as [tile Ht]. exists tile.
  unfold detect_holds, collect_predictions.
  change (Py.range tile_rows) with [0; 1; 2].
  change (Py.range tile_cols) with [0; 1; 2].
  cbn [for_each]. unfold bind at 1 2 3. by rewrite Ht.
Qed.

Lemma exhausted_retries_raise_witness :
  call_api service_down (plain_image 13 13) "key" (1 # 2) 3 (World 0 [])
  = (Raise (APIError 503 "Service Unavailable"), World 3 [1; 2]).
Proof.
  apply (exhausted_retries_raise service_down (plain_image 30 30) "key" (1 # 2)
           (World 0 [])).
  intros n req _. cbn. lia.
Defined.

(** C1, as stated, fails: with a service that answers 503 to every request,
    [call_api] does not return the empty list but raises, and the run of
    [detect_holds] ends with that exception after the first tile. *)
Lemma exhausted_retries_not_empty :
  call_api service_down (plain_image 13 13) "key" (1 # 2) 3 (World 0 [])
  = (Raise (APIError 503 "Service Unavailable"), World 3 [1; 2])
  /\ detect_holds service_down (plain_image 30 30) "key" (1 # 2) (World 0 [])
     = (Raise (APIError 503 "Service Unavailable"), World 3 [1; 2]).
Proof. split; reflexivity. Qed.

(** C2.  With three attempts: 503, 503, then 200 returns the predictions of
    the third response after exactly the two waits 1 s and 2 s, without
    raising; a first status below 500 that is not a 2xx raises the API error
    at once, with no wait and no further request. *)
Theorem call_api_retry_policy service tile api_key confidence w :
  let req := api_request tile api_key confidence in
  (status_code (service (posts w) req) = 503 ->
   status_code (service (S (posts w)) req) = 503 ->
   status_code (service (S (S (posts w))) req) = 200 ->
   call_api service tile api_key confidence 3 w
   = (Return (get (json_predictions (service (S (S (posts w))) req)) []),
      {| posts := S (S (S (posts w))); sleeps := sleeps w ++ [1; 2] |}))
  /\
  (status_code (service (posts w) req) < 500 ->
   ~ 200 <= status_code (service (posts w) req) < 300 ->
   call_api service tile api_key confidence 3 w
   = (Raise (APIError (status_code (service (posts w) req))
                      (text (service (posts w) req))),
      {| posts := S (posts w); sleeps := sleeps w |})).
Proof.
  intros req. unfold call_api. fold req. change (Py.range 3) with [0; 1; 2].
  split.
  - intros H0 H1 H2.
    rewrite call_api_loop_retry by lia.
    rewrite call_api_loop_retry by (cbn [posts]; lia).
    rewrite call_api_loop_ok by (cbn [posts]; lia).
    cbn [posts sleeps]. by rewrite <- app_assoc.
  - intros Hlt Hnot. apply call_api_loop_raise; lia.
Qed.

Lemma call_api_retry_policy_witness :
  call_api service_recovers (plain_image 13 13) "key" (1 # 2) 3 (World 0 [])
  = (Return [chain_a], World 3 [1; 2])
  /\ call_api service_not_found (plain_image 13 13) "key" (1 # 2) 3 (World 0 [])
     = (Raise (APIError 404 "Not Found"), World 1 []).
Proof.
  split.
  - apply (call_api_retry_policy service_recovers (plain_image 13 13) "key"
             (1 # 2) (World 0 [])); reflexivity.
  - apply (call_api_retry_policy service_not_found (plain_image 13 13) "key"
             (1 # 2) (World 0 [])); cbn; lia.
Defined.

(** ** Claims on the deduplicator *)

(** C3, as amended.  After the detections with an empty polygon are
    dropped, the output is the subsequence of the detections whose [keep]
    flag is still set, in their order; and a flag is cleared exactly when
    its detection is the loser of a pair [(i, j)], [i < j], that is
    compared, that is reached while both members are still kept, and whose
    centers are closer than the threshold: the lower-confidence member, [j]
    on equal confidences.  A pair with a member already marked is never
    compared and marks nothing. *)
Theorem dedup_marks_losers_of_compared_pairs predictions threshold :
  let kept := List.filter (fun p => negb (empty_points p)) predictions in
  let keep := final_keep kept threshold in
  deduplicate_predictions predictions threshold = select kept keep
  /\ length keep = length kept
  /\ forall k, keep !! k = Some false <->
       exists i j, (i < j < length kept)%nat
         /\ compared kept threshold i j
         /\ close kept threshold i j = true
         /\ k = (if conf_ge kept i j then j else i).
Proof.
  intros kept keep. split; [|split].
  - unfold deduplicate_predictions. by destruct predictions.
  - apply final_keep_length.
  - intros k. apply final_keep_cleared_iff.
Qed.

(** C3, as stated, fails on [chain]: the second and third detections are
    closer than 20 and the third has the lower confidence, yet the third
    survives, because the second was already marked when the pair came up;
    marking every near pair would leave the first detection only. *)
Lemma dedup_skips_marked_pairs :
  deduplicate_predictions chain 20 = [chain_a; chain_c]
  /\ spec_deduplicate chain 20 = [chain_a]
  /\ dist_lt (center_of chain_b) (center_of chain_c) 20 = true.
Proof. repeat split; reflexivity. Qed.

(** C4.  Deduplicating the output of a deduplication, with the same
    threshold, returns it unchanged. *)
Theorem dedup_idempotent predictions threshold :
  deduplicate_predictions (deduplicate_predictions predictions threshold) threshold
  = deduplicate_predictions predictions threshold.
Proof.
  apply dedup_fixed.
  - intros p. apply dedup_no_empty.
  - intros a b pa pb. apply dedup_survivors_apart.
Qed.

(** *** The deduplicator in binary64 *)

Section B64DedupFacts.

Variable predictions : list B64.fprediction.
Variable threshold : float.

Local Abbreviation inner := (B64.inner_loop predictions threshold).
Local Abbreviation outer := (B64.outer_loop predictions threshold).
Local Abbreviation near := (B64.close predictions threshold).

Lemma b64_inner_loop_mono i js keep k :
  inner i js keep !! k = Some true -> keep !! k = Some true.
Proof.
  revert keep. induction js as [|j js IH]; intros keep; cbn [B64.inner_loop B64.outer_loop]; [done|].
  repeat case_match; intros Hk; auto.
  - apply IH in Hk. by apply insert_false_kept in Hk as [? _].
  - by apply insert_false_kept in Hk as [? _].
Qed.

Lemma b64_outer_loop_mono idxs keep k :
  outer idxs keep !! k = Some true -> keep !! k = Some true.
Proof.
  revert keep. induction idxs as [|i idxs IH]; intros keep; cbn [B64.inner_loop B64.outer_loop]; [done|].
  case_match; intros Hk; apply IH in Hk; eauto using b64_inner_loop_mono.
Qed.

Lemma b64_inner_loop_separates i js keep :
  inner i js keep !! i = Some true ->
  forall j, j ∈ js -> inner i js keep !! j = Some true -> near i j = false.
Proof.
  revert keep. induction js as [|j0 js IH]; intros keep Hi j Hj Hkj.
  { by apply elem_of_nil in Hj. }
  cbn [B64.inner_loop B64.outer_loop] in Hi, Hkj. apply elem_of_cons in Hj.
  destruct (negb (keep !!! j0)) eqn:Hskip.
  { destruct Hj as [->|Hj]; [|by eapply IH].
    apply b64_inner_loop_mono, lookup_total_kept in Hkj.
    rewrite Hkj in Hskip. discriminate. }
  destruct (near i j0) eqn:Hnear.
  - destruct (B64.conf_ge predictions i j0).
    + destruct Hj as [->|Hj]; [|by eapply IH].
      apply b64_inner_loop_mono, insert_false_kept in Hkj. by destruct Hkj.
    + apply insert_false_kept in Hi. by destruct Hi.
  - destruct Hj as [->|Hj]; [done|by eapply IH].
Qed.

Lemma b64_outer_loop_separates idxs keep i j :
  i ∈ idxs -> (i < j < length predictions)%nat ->
  outer idxs keep !! i = Some true -> outer idxs keep !! j = Some true ->
  near i j = false.
Proof.
  revert keep. induction idxs as [|i0 idxs IH]; intros keep Hin Hij Hi Hj.
  { by apply elem_of_nil in Hin. }
  cbn [B64.inner_loop B64.outer_loop] in Hi, Hj. apply elem_of_cons in Hin.
  destruct (negb (keep !!! i0)) eqn:Hskip.
  { destruct Hin as [->|Hin]; [|by eapply IH].
    apply b64_outer_loop_mono, lookup_total_kept in Hi.
    rewrite Hi in Hskip. discriminate. }
  destruct Hin as [->|Hin]; [|by eapply IH].
  apply b64_outer_loop_mono in Hi, Hj.
  eapply b64_inner_loop_separates; [exact Hi| |exact Hj].
  apply elem_of_seq. lia.
Qed.

Lemma b64_final_keep_separates i j :
  (i < j < length predictions)%nat ->
  B64.final_keep predictions threshold !! i = Some true ->
  B64.final_keep predictions threshold !! j = Some true ->
  near i j = false.
Proof.
  intros Hij. apply b64_outer_loop_separates; [|done].
  apply elem_of_seq. lia.
Qed.

End B64DedupFacts.

Lemma b64_select_cons p ps (k : bool) ks :
  B64.select (p :: ps) (k :: ks)
  = if k then p :: B64.select ps ks else B64.select ps ks.
Proof. unfold B64.select. cbn. by destruct k. Qed.

Lemma b64_select_nil_r ps : B64.select ps [] = [].
Proof. by destruct ps. Qed.

Lemma b64_select_lookup ps keep a pa :
  B64.select ps keep !! a = Some pa ->
  exists i, ps !! i = Some pa /\ keep !! i = Some true.
Proof.
  revert keep a. induction ps as [|p ps IH]; intros keep a H; [done|].
  destruct keep as [|k ks]; [by rewrite b64_select_nil_r in H|].
  rewrite b64_select_cons in H. destruct k.
  - destruct a as [|a]; cbn in H.
    + exists 0%nat. by simplify_eq.
    + destruct (IH _ _ H) as (i & ? & ?). by exists (S i).
  - destruct (IH _ _ H) as (i & ? & ?). by exists (S i).
Qed.

Lemma b64_select_lookup_ordered ps keep a b pa pb :
  (a < b)%nat ->
  B64.select ps keep !! a = Some pa -> B64.select ps keep !! b = Some pb ->
  exists i j, (i < j)%nat /\
    ps !! i = Some pa /\ keep !! i = Some true /\
    ps !! j = Some pb /\ keep !! j = Some true.
Proof.
  revert keep a b. induction ps as [|p ps IH]; intros keep a b Hab Ha Hb; [done|].
  destruct keep as [|k ks]; [by rewrite b64_select_nil_r in Ha|].
  rewrite b64_select_cons in Ha, Hb. destruct k.
  - destruct b as [|b]; [lia|]. cbn in Hb. destruct a as [|a]; cbn in Ha.
    + destruct (b64_select_lookup _ _ _ _ Hb) as (j & ? & ?).
      exists 0%nat, (S j). simplify_eq. repeat split; auto; lia.
    + destruct (IH ks a b ltac:(lia) Ha Hb) as (i & j & ? & ? & ? & ? & ?).
      exists (S i), (S j). repeat split; auto; lia.
  - destruct (IH ks a b Hab Ha Hb) as (i & j & ? & ? & ? & ? & ?).
    exists (S i), (S j). repeat split; auto; lia.
Qed.

Lemma b64_centers_lookup ps i p :
  ps !! i = Some p -> B64.centers ps !!! i = B64.center_of p.
Proof.
  intros H. apply list_lookup_total_correct.
  unfold B64.centers. change (map B64.center_of ps) with (B64.center_of <$> ps).
  by rewrite list_lookup_fmap, H.
Qed.

(** C10, as amended.  Any two detections that both survive, taken in the
    order of the list, fail the distance test of the loop as the script
    evaluates it: the distance of their centers computed in binary64,
    [((cx_a - cx_b) ** 2 + (cy_a - cy_b) ** 2) ** 0.5], is not below the
    threshold. *)
Theorem dedup_survivors_separated predictions threshold a b pa pb :
  (a < b)%nat ->
  B64.deduplicate_predictions predictions threshold !! a = Some pa ->
  B64.deduplicate_predictions predictions threshold !! b = Some pb ->
  B64.near (B64.center_of pa) (B64.center_of pb) threshold = false.
Proof.
  unfold B64.deduplicate_predictions. destruct predictions as [|p0 ps]; [done|].
  set (l := List.filter _ _). intros Hab Ha Hb.
  destruct (b64_select_lookup_ordered _ _ _ _ _ _ Hab Ha Hb)
    as (i & j & Hij & Hpi & Hki & Hpj & Hkj).
  pose proof (lookup_lt_Some _ _ _ Hpj) as Hj.
  pose proof (b64_final_keep_separates l threshold i j ltac:(lia) Hki Hkj) as H.
  unfold B64.close in H.
  by rewrite (b64_centers_lookup _ _ _ Hpi), (b64_centers_lookup _ _ _ Hpj) in H.
Qed.

Lemma dedup_survivors_separated_witness :
  B64.near (B64.center_of (B64.box 0 0 0.75))
           (B64.center_of (B64.box 30 0 0.25)) 20 = false.
Proof.
  apply (dedup_survivors_separated row_of_boxes 20 0 1);
    [lia | reflexivity | reflexivity].
Defined.

(** C10, as stated, fails.  The centers of [close_box_a] and [close_box_b]
    are [20 - 2^-52] pixels apart, less than the threshold 20; the
    difference of their abscissas rounds to -20, the computed distance is
    20.0, the test [dist < threshold] fails and both detections survive. *)
Lemma rounding_hides_a_close_pair :
  B64.deduplicate_predictions [close_box_a; close_box_b] 20
  = [close_box_a; close_box_b]
  /\ B64.dist (B64.center_of close_box_a) (B64.center_of close_box_b) = 20%float
  /\ (sqrt (Q2R (sq_dist
                   (B64.value (B64.center_of close_box_a).1,
                    B64.value (B64.center_of close_box_a).2)
                   (B64.value (B64.center_of close_box_b).1,
                    B64.value (B64.center_of close_box_b).2)))
      < Q2R (B64.value 20))%R.
Proof.
  split; [vm_compute; reflexivity|]. split; [vm_compute; reflexivity|].
  apply sqrt_lt_spec; [apply sq_dist_nonneg|]. vm_compute. reflexivity.
Qed.

(** ** Claims on the tiler *)

(** Settles the integer comparisons of the goal from the hypotheses. *)
Ltac decide_comparisons :=
  repeat match goal with
  | |- context [(?a <=? ?b)] =>
      first [ rewrite (proj2 (Z.leb_le a b)) by lia
            | rewrite (proj2 (Z.leb_gt a b)) by lia ]
  | |- context [(?a <? ?b)] =>
      first [ rewrite (proj2 (Z.ltb_lt a b)) by lia
            | rewrite (proj2 (Z.ltb_ge a b)) by lia ]
  end.

(** Counting the elements that pass a test from below, by exhibiting them. *)
Lemma filter_length_1 {A} (f : A -> bool) (l : list A) i a :
  l !! i = Some a -> f a = true -> (1 <= length (List.filter f l))%nat.
Proof.
  revert i. induction l as [|x l IH]; intros i Hi Ha; [done|].
  cbn. destruct i as [|i]; cbn in Hi.
  - simplify_eq. rewrite Ha. cbn. lia.
  - specialize (IH i Hi Ha). destruct (f x); cbn; lia.
Qed.

Lemma filter_length_2 {A} (f : A -> bool) (l : list A) i j a b :
  (i < j)%nat -> l !! i = Some a -> l !! j = Some b ->
  f a = true -> f b = true -> (2 <= length (List.filter f l))%nat.
Proof.
  revert i j. induction l as [|x l IH]; intros i j Hij Hi Hj Ha Hb; [done|].
  cbn. destruct j as [|j]; [lia|]. cbn in Hj. destruct i as [|i]; cbn in Hi.
  - simplify_eq. rewrite Ha. cbn.
    pose proof (filter_length_1 f l j b Hj Hb). lia.
  - specialize (IH i j ltac:(lia) Hi Hj Ha Hb). destruct (f x); cbn; lia.
Qed.

Lemma range_In n k : 0 <= k < n -> In k (Py.range n).
Proof.
  intros H. unfold Py.range, Py.range2. apply in_map_iff.
  exists (Z.to_nat k). split; [lia|]. apply in_seq. lia.
Qed.

(** The working image is at most 4096 pixels wide and high, so a tile is at
    most 4096 // 3 = 1365 pixels wide and high; on all these sizes the
    margin computed in binary64 is the margin of the exact model. *)
Lemma float_margin_exact tile_size :
  0 <= tile_size <= 4096 / 3 ->
  float_margin tile_size = Py.int (inject_Z tile_size * overlap).
Proof.
  intros H.
  assert (forallb (fun t => float_margin t =? Py.int (inject_Z t * overlap))
                  (Py.range 1366) = true) as Hall by (vm_compute; reflexivity).
  rewrite forallb_forall in Hall. apply Z.eqb_eq, Hall, range_In.
  change (4096 / 3) with 1365 in H. lia.
Qed.

Lemma tiles_300 :
  tiles 300 300
  = [ (0, 0, 130, 130); (70, 0, 230, 130); (170, 0, 300, 130);
      (0, 70, 130, 230); (70, 70, 230, 230); (170, 70, 300, 230);
      (0, 170, 130, 300); (70, 170, 230, 300); (170, 170, 300, 300) ].
Proof. reflexivity. Qed.

(** The pixel of the goal lies in the tile of index [i], or in the tiles of
    indices [i] and [j]. *)
Ltac in_one_tile i :=
  eapply (filter_length_1 _ _ i);
  [ reflexivity | cbn [in_tile]; decide_comparisons; reflexivity ].
Ltac in_two_tiles i j :=
  eapply (filter_length_2 _ _ i j);
  [ lia | reflexivity | reflexivity
  | cbn [in_tile]; decide_comparisons; reflexivity
  | cbn [in_tile]; decide_comparisons; reflexivity ].

(** C7.  In the 3 x 3 tiling of a 300 x 300 image, every pixel lies in at
    least one tile, and every pixel strictly within 30 pixels of one of the
    grid lines x = 100, x = 200, y = 100, y = 200 lies in at least two. *)
Theorem tiles_300_cover x y :
  0 <= x < 300 -> 0 <= y < 300 ->
  (1 <= tile_count 300 300 x y)%nat
  /\ (Z.abs (x - 100) < 30 \/ Z.abs (x - 200) < 30
      \/ Z.abs (y - 100) < 30 \/ Z.abs (y - 200) < 30 ->
      (2 <= tile_count 300 300 x y)%nat).
Proof.
  intros Hx Hy. unfold tile_count. rewrite tiles_300.
  assert (x < 100 \/ 100 <= x < 200 \/ 200 <= x) as Rx by lia.
  assert (y < 100 \/ 100 <= y < 200 \/ 200 <= y) as Ry by lia.
  split.
  - destruct Rx as [Rx|[Rx|Rx]]; destruct Ry as [Ry|[Ry|Ry]].
    + in_one_tile 0%nat.
    + in_one_tile 3%nat.
    + in_one_tile 6%nat.
    + in_one_tile 1%nat.
    + in_one_tile 4%nat.
    + in_one_tile 7%nat.
    + in_one_tile 2%nat.
    + in_one_tile 5%nat.
    + in_one_tile 8%nat.
  - intros [H|[H|[H|H]]].
    + destruct Ry as [Ry|[Ry|Ry]];
        [in_two_tiles 0%nat 1%nat|in_two_tiles 3%nat 4%nat|in_two_tiles 6%nat 7%nat].
    + destruct Ry as [Ry|[Ry|Ry]];
        [in_two_tiles 1%nat 2%nat|in_two_tiles 4%nat 5%nat|in_two_tiles 7%nat 8%nat].
    + destruct Rx as [Rx|[Rx|Rx]];
        [in_two_tiles 0%nat 3%nat|in_two_tiles 1%nat 4%nat|in_two_tiles 2%nat 5%nat].
    + destruct Rx as [Rx|[Rx|Rx]];
        [in_two_tiles 3%nat 6%nat|in_two_tiles 4%nat 7%nat|in_two_tiles 5%nat 8%nat].
Qed.

Lemma tiles_300_cover_witness :
  (1 <= tile_count 300 300 99 250)%nat /\ (2 <= tile_count 300 300 99 250)%nat.
Proof.
  destruct (tiles_300_cover 99 250) as [H1 H2]; [lia | lia |].
  split; [exact H1 | apply H2; lia].
Defined.

(** ** Rounding and truncation *)

Lemma round_half_even_cases q :
  Py.round_half_even q = Qfloor q \/ Py.round_half_even q = Qfloor q + 1.
Proof.
  unfold Py.round_half_even.
  destruct (Qcompare _ _); [destruct (Z.even _)| |]; auto.
Qed.

(** The nearest integer is at most one half away. *)
Lemma round_half_even_bounds q :
  (q - (1 # 2) <= inject_Z (Py.round_half_even q) <= q + (1 # 2))%Q.
Proof.
  unfold Py.round_half_even.
  pose proof (Qfloor_le q) as Hlo. pose proof (Qlt_floor q) as Hhi.
  rewrite inject_Z_plus in Hhi. change (inject_Z 1) with 1%Q in Hhi.
  destruct (Qcompare_spec (q - inject_Z (Qfloor q)) (1 # 2)) as [E|E|E];
    [destruct (Z.even _)| |];
    rewrite ?inject_Z_plus; change (inject_Z 1) with 1%Q; qlra.
Qed.

(** Rounding is monotone across integers. *)
Lemma round_half_even_ge q n :
  (inject_Z n <= q)%Q -> n <= Py.round_half_even q.
Proof.
  intros H. apply Qfloor_resp_le in H. rewrite Qfloor_Z in H.
  destruct (round_half_even_cases q) as [-> | ->]; lia.
Qed.

Lemma round_half_even_le q n :
  (q <= inject_Z n)%Q -> Py.round_half_even q <= n.
Proof.
  intros H. pose proof (Qfloor_le q) as Hlo.
  unfold Py.round_half_even.
  destruct (Qcompare_spec (q - inject_Z (Qfloor q)) (1 # 2)) as [E|E|E].
  - assert (inject_Z (Qfloor q) < inject_Z n)%Q as Hlt by qlra.
    rewrite <- Zlt_Qlt in Hlt. destruct (Z.even _); lia.
  - assert (inject_Z (Qfloor q) <= inject_Z n)%Q as Hle by qlra.
    by rewrite <- Zle_Qle in Hle.
  - assert (inject_Z (Qfloor q) < inject_Z n)%Q as Hlt by qlra.
    rewrite <- Zlt_Qlt in Hlt. lia.
Qed.

Lemma round_half_even_Z q n :
  (q == inject_Z n)%Q -> Py.round_half_even q = n.
Proof.
  intros H. apply Z.le_antisymm.
  - apply round_half_even_le. qlra.
  - apply round_half_even_ge. qlra.
Qed.

Lemma round2_unfold q :
  Py.round q 2 = (inject_Z (Py.round_half_even (q * 100)) * (1 # 100))%Q.
Proof. reflexivity. Qed.

(** [round(q, 2)] is within half a hundredth of [q]. *)
Lemma round2_bounds q :
  (q - (1 # 200) <= Py.round q 2 <= q + (1 # 200))%Q.
Proof.
  rewrite round2_unfold.
  pose proof (round_half_even_bounds (q * 100)) as H.
  set (r := inject_Z _) in *. qlra.
Qed.

(** [round(q, 2)] stays in a range with integer ends. *)
Lemma round2_range q (lo hi : Z) :
  (inject_Z lo <= q <= inject_Z hi)%Q ->
  (inject_Z lo <= Py.round q 2 <= inject_Z hi)%Q.
Proof.
  intros [Hlo Hhi]. rewrite round2_unfold.
  assert (lo * 100 <= Py.round_half_even (q * 100)) as H1.
  { apply round_half_even_ge. rewrite inject_Z_mult.
    change (inject_Z 100) with 100%Q. qlra. }
  assert (Py.round_half_even (q * 100) <= hi * 100) as H2.
  { apply round_half_even_le. rewrite inject_Z_mult.
    change (inject_Z 100) with 100%Q. qlra. }
  rewrite Zle_Qle, inject_Z_mult in H1, H2.
  change (inject_Z 100) with 100%Q in H1, H2.
  set (r := inject_Z (Py.round_half_even _)) in *. qlra.
Qed.

(** Rounding a rounded value changes nothing. *)
Lemma round2_idem q : Py.round (Py.round q 2) 2 = Py.round q 2.
Proof.
  rewrite (round2_unfold (Py.round q 2)).
  rewrite (round_half_even_Z _ (Py.round_half_even (q * 100))); [done|].
  rewrite round2_unfold. set (r := inject_Z _). ring.
Qed.

(** ** Claims on the result assembler *)

(** *** The round trip of a pixel coordinate, in binary64 *)

Module RoundTripFacts.

Import Uint63.

Lemma of_Z_succ a : Uint63.of_Z (a + 1) = Uint63.add (Uint63.of_Z a) 1%uint63.
Proof.
  apply Uint63.to_Z_inj.
  rewrite Uint63.add_spec, !Uint63.of_Z_spec, Uint63.to_Z_1.
  by rewrite Zplus_mod_idemp_l.
Qed.

Lemma all_from_spec fuel a c P :
  c = Uint63.of_Z a ->
  B64.all_from fuel a c P = true ->
  forall k, a <= k < a + Z.of_nat fuel -> P k (Uint63.of_Z k) = true.
Proof.
  revert a c. induction fuel as [|fuel IH]; intros a c -> H k Hk; [lia|].
  cbn [B64.all_from] in H. apply andb_true_iff in H as [Ha Hrest].
  destruct (Z.eq_dec k a) as [->|Hne]; [done|].
  apply (IH (a + 1) _ (eq_sym (of_Z_succ a)) Hrest). lia.
Qed.

(** The test passes on every axis of 1 to 4096 pixels and every pixel
    coordinate from 0 to the size of the axis: 8,394,752 round trips, each
    evaluated in binary64. *)
Lemma round_trips_checked :
  B64.all_from 4096 1 1%uint63
    (fun dim cdim =>
       B64.all_from (S (Z.to_nat dim)) 0 0%uint63
         (fun _ cx => B64.round_trip_ok cx cdim)) = true.
Proof. vm_compute. reflexivity. Qed.

(** What the test on machine integers says of the integers. *)
Lemma round_trip_ok_sound x dim :
  0 <= x < 2 ^ 62 ->
  B64.round_trip_ok (Uint63.of_Z x) (Uint63.of_Z dim) = true ->
  Z.abs (B64.to_pixel (B64.round2 (B64.to_percent (B64.of_int x) dim)) dim - x)
  <= 1.
Proof.
  intros Hx. unfold B64.round_trip_ok, B64.to_pixel, B64.to_percent, B64.int,
    B64.of_int, float_of_int. cbv zeta.
  set (v := PrimFloat.mul _ _). intros H.
  apply andb_true_iff in H as [Hguard H]. rewrite Hguard.
  assert (Uint63.wB = 2 ^ 63) as HwB by reflexivity.
  assert (Uint63.to_Z (Uint63.of_Z x) = x) as Hx0.
  { rewrite Uint63.of_Z_spec. apply Z.mod_small. lia. }
  apply orb_true_iff in H as [H|H]; [apply orb_true_iff in H as [H|H]|].
  - apply Uint63.eqb_spec in H. rewrite H, Hx0. lia.
  - apply Uint63.eqb_spec in H.
    rewrite H, Uint63.add_spec, Hx0, Uint63.to_Z_1, Z.mod_small; lia.
  - apply andb_true_iff in H as [Hpos H]. apply Uint63.ltb_spec in Hpos.
    rewrite Uint63.to_Z_0, Hx0 in Hpos. apply Uint63.eqb_spec in H.
    rewrite H, Uint63.sub_spec, Hx0, Uint63.to_Z_1, Z.mod_small; lia.
Qed.

End RoundTripFacts.

(** C8.  For an image of width and height at most 4096, an integer pixel
    coordinate within the image, converted to a percentage rounded to 2
    decimals and mapped back by truncation, differs from the original by at
    most 1, on each axis; every operation is the binary64 operation of the
    script: the quotient and the product of the conversion, [round(., 2)],
    the quotient and the product of the way back, and [int]. *)
Theorem percent_round_trip width height x y :
  0 < width <= 4096 -> 0 < height <= 4096 ->
  0 <= x <= width -> 0 <= y <= height ->
  Z.abs (B64.to_pixel (B64.round2 (B64.to_percent (B64.of_int x) width)) width
         - x) <= 1
  /\ Z.abs (B64.to_pixel (B64.round2 (B64.to_percent (B64.of_int y) height)) height
            - y) <= 1.
Proof.
  assert (forall dim v, 0 < dim <= 4096 -> 0 <= v <= dim ->
            Z.abs (B64.to_pixel (B64.round2 (B64.to_percent (B64.of_int v) dim)) dim
                   - v) <= 1) as Haxis.
  { intros dim v Hdim Hv. apply RoundTripFacts.round_trip_ok_sound; [lia|].
    exact (RoundTripFacts.all_from_spec _ 0 _ _ eq_refl
             (RoundTripFacts.all_from_spec 4096 1 _ _ eq_refl
                RoundTripFacts.round_trips_checked dim ltac:(lia))
             v ltac:(lia)). }
  intros. split; by apply Haxis.
Qed.

Lemma percent_round_trip_witness :
  Z.abs (B64.to_pixel (B64.round2 (B64.to_percent (B64.of_int 29) 100)) 100 - 29)
  <= 1
  /\ Z.abs (B64.to_pixel (B64.round2 (B64.to_percent (B64.of_int 7) 3000)) 3000 - 7)
     <= 1.
Proof. apply (percent_round_trip 100 3000 29 7); lia. Defined.

(** The geometry of a detection that the deduplicator let through is never
    skipped. *)
Lemma geometry_some width height pred :
  empty_points pred = false -> is_Some (geometry width height pred).
Proof.
  unfold empty_points, geometry. intros H.
  destruct (pred_points pred) as [[|p pts]|]; [done|by eexists|by eexists].
Qed.

Lemma assemble_hold_some img confidence pred :
  empty_points pred = false ->
  (confidence <= get (pred_confidence pred) 0)%Q ->
  exists h, assemble_hold img confidence pred = Some h
    /\ hold_confidence h = Py.round (get (pred_confidence pred) 0%Q) 3.
Proof.
  intros Hne Hle. unfold assemble_hold.
  destruct (Qlt_le_dec _ _) as [Hlt|_]; [qlra|].
  destruct (geometry_some (img_width img) (img_height img) pred Hne)
    as [[[polygon cx] cy] ->].
  by eexists.
Qed.

Lemma assemble_hold_none img confidence pred :
  (get (pred_confidence pred) 0 < confidence)%Q ->
  assemble_hold img confidence pred = None.
Proof.
  intros Hlt. unfold assemble_hold.
  destruct (Qlt_le_dec _ _) as [_|Hle]; [done|qlra].
Qed.

Lemma assemble_app img confidence l1 l2 :
  assemble img confidence (l1 ++ l2)
  = assemble img confidence l1 ++ assemble img confidence l2.
Proof. unfold assemble. apply omap_app. Qed.

(** C5.  In the assembler run on the deduplicated detections, a detection
    whose confidence equals the threshold is retained: a hold is emitted
    for it, with that confidence rounded to 3 decimals.  A detection whose
    confidence is strictly below the threshold is dropped: no hold is built
    for it, and the output is the one of the list without it. *)
Theorem confidence_filter_boundary img confidence all_predictions pred :
  pred ∈ deduplicate_predictions all_predictions 20 ->
  ((get (pred_confidence pred) 0 == confidence)%Q ->
     exists h, assemble_hold img confidence pred = Some h
       /\ h ∈ assemble img confidence (deduplicate_predictions all_predictions 20)
       /\ hold_confidence h = Py.round (get (pred_confidence pred) 0%Q) 3)
  /\
  ((get (pred_confidence pred) 0 < confidence)%Q ->
     assemble_hold img confidence pred = None
     /\ forall before after,
          assemble img confidence (before ++ pred :: after)
          = assemble img confidence (before ++ after)).
Proof.
  intros Hin. split.
  - intros Heq.
    destruct (assemble_hold_some img confidence pred) as (h & Hh & Hc).
    { by eapply dedup_no_empty. }
    { qlra. }
    exists h. split; [done|]. split; [|done].
    unfold assemble. apply list_elem_of_omap. by exists pred.
  - intros Hlt. pose proof (assemble_hold_none img confidence pred Hlt) as Hn.
    split; [done|]. intros before after.
    rewrite !assemble_app. f_equal. unfold assemble. cbn. by rewrite Hn.
Qed.

Lemma confidence_filter_boundary_witness :
  (exists h, assemble_hold (plain_image 30 30) (9 # 10) chain_a = Some h
     /\ h ∈ assemble (plain_image 30 30) (9 # 10) (deduplicate_predictions chain 20)
     /\ hold_confidence h = Py.round (get (pred_confidence chain_a) 0%Q) 3)
  /\ assemble_hold (plain_image 30 30) (9 # 10) chain_c = None.
Proof.
  split.
  - apply (confidence_filter_boundary (plain_image 30 30) (9 # 10) chain chain_a).
    + apply list_elem_of_here.
    + reflexivity.
  - apply (confidence_filter_boundary (plain_image 30 30) (9 # 10) chain chain_c).
    + apply list_elem_of_further, list_elem_of_here.
    + reflexivity.
Defined.

(** C9.  The center is computed by two different paths.  For a polygon-form
    detection the polygon is the list of its points, each converted to a
    percentage rounded to 2 decimals, and the center is the arithmetic mean
    of those converted points.  For a box-form detection the center is the
    stored pixel center converted to a percentage rounded to 2 decimals,
    and, as [small_box] in a 300 x 300 image shows, that is not the mean of
    the four synthesized corners.  The hold's center field is that center
    rounded to 2 decimals, which changes nothing on the box path. *)
Theorem center_paths img confidence pred h :
  assemble_hold img confidence pred = Some h ->
  let width := img_width img in
  let height := img_height img in
  (forall pts, pred_points pred = Some pts ->
     let polygon := map (fun p => percent_point width height (pt_x p) (pt_y p)) pts in
     geometry width height pred
     = Some (polygon, (mean_point polygon).1, (mean_point polygon).2)
     /\ hold_polygon h = polygon
     /\ hold_center h = {| pt_x := Py.round (mean_point polygon).1 2;
                           pt_y := Py.round (mean_point polygon).2 2 |})
  /\
  (pred_points pred = None ->
     let center := percent_point width height
                     (get (pred_x pred) 0%Q) (get (pred_y pred) 0%Q) in
     (exists polygon,
        geometry width height pred = Some (polygon, pt_x center, pt_y center)
        /\ hold_polygon h = polygon /\ length polygon = 4%nat)
     /\ hold_center h = center)
  /\
  (exists polygon cx cy,
     geometry 300 300 small_box = Some (polygon, cx, cy)
     /\ ~ (cx == (mean_point polygon).1)%Q
     /\ ~ (cy == (mean_point polygon).2)%Q).
Proof.
  intros Hh width height. unfold assemble_hold in Hh.
  destruct (Qlt_le_dec _ _); [done|].
  fold width height in Hh. split; [|split].
  - intros pts Hpts polygon. unfold geometry in *. rewrite Hpts in *.
    fold polygon in Hh |- *. destruct polygon as [|p0 polygon'] eqn:E; [done|].
    simplify_eq. done.
  - intros Hbox center. unfold geometry in *. rewrite Hbox in *.
    simplify_eq. cbn [hold_polygon hold_center]. split.
    + by eexists.
    + unfold center, percent_point. by rewrite !round2_idem.
  - eexists _, _, _. split; [reflexivity|]. by split.
Qed.

Lemma center_paths_witness :
  (exists polygon,
     geometry 300 300 small_box
     = Some (polygon,
             pt_x (percent_point 300 300 1 1), pt_y (percent_point 300 300 1 1))
     /\ length polygon = 4%nat).
Proof.
  destruct (assemble_hold (plain_image 300 300) (1 # 2) small_box) as [h|] eqn:E;
    [|discriminate].
  destruct (center_paths (plain_image 300 300) (1 # 2) small_box h E)
    as (_ & H & _).
  destruct (H eq_refl) as [(polygon & Hg & _ & Hlen) _].
  by exists polygon.
Defined.

(** *** Percentages of positions inside the image *)

Lemma inject_Z_pos dim : 0 < dim -> (0 < inject_Z dim)%Q.
Proof. intros H. change 0%Q with (inject_Z 0). by rewrite <- Zlt_Qlt. Qed.

(** A coordinate between 0 and [dim] becomes a percentage between 0 and
    100, still so after rounding. *)
Lemma percent_range v dim :
  0 < dim -> (0 <= v <= inject_Z dim)%Q ->
  (0 <= Py.round (to_percent v dim) 2 <= 100)%Q.
Proof.
  intros Hdim Hv. apply (round2_range _ 0 100). unfold to_percent.
  pose proof (inject_Z_pos dim Hdim) as HD.
  assert (v / inject_Z dim * inject_Z dim == v)%Q as Hq by (field; qlra).
  set (q := (v / inject_Z dim)%Q) in *. set (D := inject_Z dim) in *.
  change (inject_Z 0) with 0%Q. change (inject_Z 100) with 100%Q.
  split; qnra.
Qed.

Lemma percent_point_in_range width height x y :
  0 < width -> 0 < height ->
  point_within width height (Point x y) ->
  percent_in_range (percent_point width height x y).
Proof.
  intros Hw Hh [Hx Hy]. split; cbn; by apply percent_range.
Qed.

Lemma len_cons {A} (x : A) xs : (Py.len (x :: xs) == Py.len xs + 1)%Q.
Proof.
  unfold Py.len. cbn [length]. rewrite Nat2Z.inj_succ. unfold Z.succ.
  by rewrite inject_Z_plus.
Qed.

Lemma len_nonneg {A} (xs : list A) : (0 <= Py.len xs)%Q.
Proof.
  unfold Py.len. change 0%Q with (inject_Z 0). rewrite <- Zle_Qle. lia.
Qed.

Lemma sum_bounds xs lo hi :
  Forall (fun x => lo <= x <= hi)%Q xs ->
  (Py.len xs * lo <= Py.sum xs <= Py.len xs * hi)%Q.
Proof.
  induction 1 as [|x xs Hx _ IH].
  - change (Py.len (@nil Q)) with 0%Q. change (Py.sum []) with 0%Q. qlra.
  - rewrite len_cons. cbn [Py.sum foldr].
    change (foldr Qplus 0%Q xs) with (Py.sum xs). qlra.
Qed.

(** The mean of values of a range is in the range. *)
Lemma mean_bounds xs lo hi :
  xs <> [] -> Forall (fun x => lo <= x <= hi)%Q xs ->
  (lo <= Py.sum xs / Py.len xs <= hi)%Q.
Proof.
  intros Hne H. pose proof (sum_bounds xs lo hi H) as Hs.
  assert (0 < Py.len xs)%Q as Hlen.
  { destruct xs as [|x xs]; [done|]. rewrite len_cons.
    pose proof (len_nonneg xs). qlra. }
  assert (Py.sum xs / Py.len xs * Py.len xs == Py.sum xs)%Q as Hm
    by (field; qlra).
  set (m := (Py.sum xs / Py.len xs)%Q) in *. set (n := Py.len xs) in *.
  set (s := Py.sum xs) in *. split; qnra.
Qed.

Lemma len_map {A B} (f : A -> B) xs : Py.len (map f xs) = Py.len xs.
Proof. unfold Py.len. by rewrite length_map. Qed.

Lemma mean_point_in_range polygon :
  polygon <> [] -> Forall percent_in_range polygon ->
  (0 <= (mean_point polygon).1 <= 100)%Q /\ (0 <= (mean_point polygon).2 <= 100)%Q.
Proof.
  intros Hne Hall. unfold mean_point. cbn [fst snd].
  split; [rewrite <- (len_map pt_x polygon)|rewrite <- (len_map pt_y polygon)];
    apply mean_bounds; try (by destruct polygon);
    apply Forall_map; (eapply Forall_impl; [exact Hall|]); by intros p [Hx Hy].
Qed.

(** The geometry computed for a detection that lies within the image is in
    range: every vertex, and the center once rounded. *)
Lemma geometry_in_range width height pred polygon cx cy :
  0 < width -> 0 < height -> within width height pred ->
  geometry width height pred = Some (polygon, cx, cy) ->
  Forall percent_in_range polygon
  /\ (0 <= Py.round cx 2 <= 100)%Q /\ (0 <= Py.round cy 2 <= 100)%Q.
Proof.
  intros Hw Hh Hin Hg. unfold within, geometry in *.
  destruct (pred_points pred) as [pts|].
  - set (poly := map _ pts) in Hg.
    assert (Forall percent_in_range poly) as Hpoly.
    { unfold poly. apply Forall_map. eapply Forall_impl; [exact Hin|].
      intros [x y] Hp. by apply percent_point_in_range. }
    destruct poly as [|p0 poly'] eqn:E; [done|]. simplify_eq.
    split; [done|].
    destruct (mean_point_in_range (p0 :: poly')) as [Hx Hy]; [done|done|].
    split; by apply (round2_range _ 0 100).
  - simplify_eq. destruct Hin as [[Hx1 Hy1] [Hx2 Hy2]]. cbn in Hx1, Hy1, Hx2, Hy2.
    split.
    + repeat constructor; cbn; apply percent_range; auto; qlra.
    + split; apply (round2_range _ 0 100); apply percent_range; auto; qlra.
Qed.

Lemma assemble_hold_in_range img confidence pred h :
  0 < img_width img -> 0 < img_height img ->
  within (img_width img) (img_height img) pred ->
  assemble_hold img confidence pred = Some h -> hold_in_range h.
Proof.
  intros Hw Hh Hin Hh'. unfold assemble_hold in Hh'.
  destruct (Qlt_le_dec _ _); [done|].
  destruct (geometry _ _ pred) as [[[polygon cx] cy]|] eqn:Hg; [|done].
  simplify_eq.
  destruct (geometry_in_range _ _ _ _ _ _ Hw Hh Hin Hg) as (Hp & Hcx & Hcy).
  by split.
Qed.

Lemma assemble_in_range img confidence predictions :
  0 < img_width img -> 0 < img_height img ->
  Forall (within (img_width img) (img_height img)) predictions ->
  Forall hold_in_range (assemble img confidence predictions).
Proof.
  intros Hw Hh Hall. apply Forall_forall. intros h Hin.
  apply list_elem_of_omap in Hin as (pred & Hpred & Hh').
  rewrite Forall_forall in Hall.
  eapply assemble_hold_in_range; eauto.
Qed.

(** *** From the tile to the image *)

Lemma overlap_nonneg tile_size :
  0 <= tile_size -> 0 <= Py.int (inject_Z tile_size * overlap).
Proof.
  intros H. unfold Py.int, overlap. cbn [Qnum Qden Qmult inject_Z].
  apply Z.quot_pos; lia.
Qed.

(** One axis of a tile: a coordinate of the tile, moved by the origin of
    the tile, is a coordinate of the image. *)
Lemma tile_axis size cell lo hi (v : Q) :
  0 <= size -> 0 <= cell <= 2 ->
  let tile_size := size / 3 in
  let margin := Py.int (inject_Z tile_size * overlap) in
  lo = Z.max 0 (cell * tile_size - margin) ->
  hi = Z.min size ((cell + 1) * tile_size + margin) ->
  (0 <= v <= inject_Z (Z.max 0 (Py.slice_bound size hi - Py.slice_bound size lo)))%Q ->
  (0 <= v + inject_Z lo <= inject_Z size)%Q.
Proof.
  intros Hsize Hcell tile_size margin.
  assert (0 <= tile_size /\ 3 * tile_size <= size) as [Ht0 Ht3].
  { subst tile_size. pose proof (Z.div_pos size 3).
    pose proof (Z.mul_div_le size 3). lia. }
  pose proof (overlap_nonneg tile_size Ht0) as Hm.
  fold margin in Hm. clearbody margin tile_size.
  intros Hlo Hhi [Hv0 Hv1].
  assert (0 <= lo <= size) as Hlo' by nia.
  assert (0 <= hi <= size) as Hhi' by nia.
  unfold Py.slice_bound in Hv1.
  destruct (Z.ltb_spec hi 0); [lia|]. destruct (Z.ltb_spec lo 0); [lia|].
  rewrite (Z.min_l hi size), (Z.min_l lo size) in Hv1 by lia.
  assert (inject_Z (Z.max 0 (hi - lo)) + inject_Z lo <= inject_Z size)%Q as Hsum.
  { rewrite <- inject_Z_plus, <- Zle_Qle. lia. }
  assert (0 <= inject_Z lo)%Q
    by (change 0%Q with (inject_Z 0); rewrite <- Zle_Qle; lia).
  split; qlra.
Qed.

(** A point of a tile, moved by the origin of the tile, is a point of the
    image. *)
Lemma shift_point_within img row col p :
  0 <= img_width img -> 0 <= img_height img ->
  0 <= row <= 2 -> 0 <= col <= 2 ->
  let '(x1, y1, x2, y2) := tile_bounds (img_width img) (img_height img) row col in
  let tile := crop img y1 y2 x1 x2 in
  point_within (img_width tile) (img_height tile) p ->
  point_within (img_width img) (img_height img) (shift_point x1 y1 p).
Proof.
  intros Hw Hh Hrow Hcol. unfold tile_bounds. cbn zeta.
  intros [Hx Hy]. unfold crop in Hx, Hy. cbn [img_width img_height] in Hx, Hy.
  split; cbn [shift_point pt_x pt_y].
  - eapply (tile_axis (img_width img) col); eauto.
  - eapply (tile_axis (img_height img) row); eauto.
Qed.

Lemma adjust_prediction_within tw th width height x1 y1 pred pred' :
  (forall p, point_within tw th p ->
             point_within width height (shift_point x1 y1 p)) ->
  within tw th pred ->
  adjust_prediction x1 y1 pred = Return pred' ->
  within width height pred'.
Proof.
  intros Hshift Hin Hadj. unfold within, adjust_prediction in *.
  destruct (pred_points pred) as [pts|].
  - simplify_eq. cbn. apply Forall_map. eapply Forall_impl; [exact Hin|].
    intros p Hp. by apply Hshift.
  - destruct (pred_x pred) as [x|]; [|done].
    destruct (pred_y pred) as [y|]; [|done].
    simplify_eq. cbn [pred_points pred_x pred_y pred_width pred_height get default].
    destruct Hin as [H1 H2]. apply Hshift in H1, H2.
    unfold point_within, shift_point, get in *.
    cbn [pt_x pt_y default from_option] in *. unfold Datatypes.id in *.
    set (bw := default 0%Q (pred_width pred)) in *.
    set (bh := default 0%Q (pred_height pred)) in *.
    unfold Qdiv in *. change (/ 2)%Q with (1 # 2)%Q in *.
    destruct H1 as [? ?], H2 as [? ?]. repeat split; qlra.
Qed.

Lemma adjust_all_within tw th width height x1 y1 predictions predictions' :
  (forall p, point_within tw th p ->
             point_within width height (shift_point x1 y1 p)) ->
  Forall (within tw th) predictions ->
  adjust_all x1 y1 predictions = Return predictions' ->
  Forall (within width height) predictions'.
Proof.
  intros Hshift Hall. revert predictions'.
  induction Hall as [|pred rest Hpred _ IH]; intros predictions' Hadj; cbn in Hadj.
  - by simplify_eq.
  - destruct (adjust_prediction x1 y1 pred) as [pred'|] eqn:E; [|done].
    destruct (adjust_all x1 y1 rest) as [rest'|]; [|done].
    simplify_eq. constructor; [|by apply IH].
    by eapply adjust_prediction_within.
Qed.

(** What [call_api] returns is the empty list or the predictions of one of
    the responses to its request. *)
Lemma call_api_loop_returns service req max_retries attempts w predictions w' :
  call_api_loop service req max_retries attempts w = (Return predictions, w') ->
  predictions = []
  \/ exists n, predictions = get (json_predictions (service n req)) [].
Proof.
  revert w. induction attempts as [|attempt attempts IH]; intros w H; cbn in H.
  - unfold ret in H. simplify_eq. by left.
  - unfold bind, post in H. cbn in H.
    destruct (status_code (service (posts w) req) =? 200).
    + unfold ret in H. simplify_eq. right. by eexists.
    + destruct (_ && _); [|by unfold raise in H].
      unfold sleep in H. cbn in H. by eapply IH.
Qed.

(** Running a loop keeps what every iteration keeps. *)
Lemma for_each_invariant {A S} (P : S -> Prop) (xs : list A)
    (body : A -> S -> M S) :
  (forall x acc w acc' w',
     x ∈ xs -> P acc -> body x acc w = (Return acc', w') -> P acc') ->
  forall acc w r w',
    P acc -> for_each xs body acc w = (Return r, w') -> P r.
Proof.
  induction xs as [|x xs IH]; intros Hbody acc w r w' Hacc Hrun; cbn in Hrun.
  - unfold ret in Hrun. by simplify_eq.
  - unfold bind in Hrun.
    destruct (body x acc w) as [[acc1|e] w1] eqn:E; [|done].
    eapply (IH ltac:(intros; eapply Hbody; eauto using list_elem_of_further));
      [|exact Hrun].
    eapply Hbody; [apply list_elem_of_here|exact Hacc|exact E].
Qed.

Lemma dedup_subset predictions threshold p :
  p ∈ deduplicate_predictions predictions threshold -> p ∈ predictions.
Proof.
  unfold deduplicate_predictions. destruct predictions as [|p0 ps]; [done|].
  intros H. apply list_elem_of_lookup in H as [a Ha].
  apply select_lookup in Ha as (i & Hi & _).
  apply list_elem_of_lookup_2, list_elem_of_In, filter_In in Hi as [Hi _].
  by apply list_elem_of_In.
Qed.

Section PipelineFacts.

Variable service : nat -> request -> response.
Variable img : image.

Hypothesis img_width_pos : 0 < img_width img.
Hypothesis img_height_pos : 0 < img_height img.

(** Every detection of every response lies within the tile submitted. *)
Hypothesis service_within :
  forall n req,
    Forall (within (img_width (req_data req)) (img_height (req_data req)))
           (get (json_predictions (service n req)) []).

Local Abbreviation in_image := (within (img_width img) (img_height img)).

Lemma process_tile_within api_key confidence row col acc w acc' w' :
  0 <= row <= 2 -> 0 <= col <= 2 ->
  Forall in_image acc ->
  process_tile service img api_key confidence row col acc w = (Return acc', w') ->
  Forall in_image acc'.
Proof.
  intros Hrow Hcol Hacc Hrun. unfold process_tile in Hrun.
  pose proof (fun p => shift_point_within img row col p
                ltac:(lia) ltac:(lia) Hrow Hcol) as Hshift.
  destruct (tile_bounds _ _ row col) as [[[x1 y1] x2] y2].
  cbn zeta in Hshift. unfold bind in Hrun.
  destruct (call_api _ _ _ _ _ w) as [[predictions|e] w1] eqn:Ecall; [|done].
  unfold lift, ret in Hrun.
  destruct (adjust_all x1 y1 predictions) as [predictions'|e] eqn:Eadj; [|done].
  simplify_eq. apply Forall_app. split; [done|].
  eapply adjust_all_within; [exact Hshift| |exact Eadj].
  apply call_api_loop_returns in Ecall as [->|[n ->]]; [constructor|].
  apply (service_within n (api_request _ api_key confidence)).
Qed.

Lemma collect_predictions_within api_key confidence w all_predictions w' :
  collect_predictions service img api_key confidence w
  = (Return all_predictions, w') ->
  Forall in_image all_predictions.
Proof.
  unfold collect_predictions.
  change (Py.range tile_rows) with [0; 1; 2].
  change (Py.range tile_cols) with [0; 1; 2].
  apply (for_each_invariant (Forall in_image)); [|constructor].
  intros row acc w0 acc0 w0' Hrow Hacc.
  apply (for_each_invariant (Forall in_image)); [|exact Hacc].
  intros col acc1 w1 acc1' w1' Hcol Hacc1.
  apply list_elem_of_In in Hrow, Hcol. cbn in Hrow, Hcol.
  apply process_tile_within; [lia|lia|exact Hacc1].
Qed.

End PipelineFacts.

(** C6, as amended.  In an image of positive width and height, when every
    detection the service returns lies within the submitted tile (each
    vertex of a polygon; for a box, the whole rectangle, center plus and
    minus half its size), every emitted hold has all its polygon
    coordinates and both center coordinates between 0 and 100. *)
Theorem holds_in_percent_range service img api_key confidence w holds w' :
  0 < img_width img -> 0 < img_height img ->
  (forall n req,
     Forall (within (img_width (req_data req)) (img_height (req_data req)))
            (get (json_predictions (service n req)) [])) ->
  detect_holds service img api_key confidence w = (Return holds, w') ->
  Forall hold_in_range holds.
Proof.
  intros Hw Hh Hservice Hrun. unfold detect_holds, bind, ret in Hrun.
  destruct (collect_predictions _ _ _ _ w) as [[all_predictions|e] w1] eqn:E;
    [|done].
  simplify_eq. apply assemble_in_range; [done|done|].
  apply collect_predictions_within in E; [|done..].
  rewrite Forall_forall in E |- *. intros p Hp. by eapply E, dedup_subset.
Qed.

Lemma service_triangles_within n req :
  Forall (within (img_width (req_data req)) (img_height (req_data req)))
         (get (json_predictions (service_triangles n req)) []).
Proof.
  unfold service_triangles.
  destruct (Z.leb_spec 0 (img_width (req_data req))) as [Hw|];
    [destruct (Z.leb_spec 0 (img_height (req_data req))) as [Hh|]|];
    cbn; try constructor; [|constructor].
  unfold within. cbn.
  assert (0 <= inject_Z (img_width (req_data req)))%Q
    by (change 0%Q with (inject_Z 0); by rewrite <- Zle_Qle).
  assert (0 <= inject_Z (img_height (req_data req)))%Q
    by (change 0%Q with (inject_Z 0); by rewrite <- Zle_Qle).
  repeat constructor; cbn; qlra.
Qed.

Lemma holds_in_percent_range_witness :
  exists holds w',
    detect_holds service_triangles (plain_image 30 30) "key" (1 # 2) (World 0 [])
    = (Return holds, w')
    /\ holds <> [] /\ Forall hold_in_range holds.
Proof.
  eexists _, _. split; [vm_compute; reflexivity|]. split; [discriminate|].
  eapply (holds_in_percent_range service_triangles (plain_image 30 30) "key"
            (1 # 2) (World 0 []));
    [reflexivity | reflexivity | apply service_triangles_within
    | vm_compute; reflexivity].
Defined.

(** C6, as stated, fails.  Every geometry field that [service_edge_box]
    returns is a value of the submitted tile's coordinate space (the center
    of the box is in the tile, its width and height do not exceed the
    tile's), and the image is 30 x 30; yet the hold emitted for [edge_box]
    has a corner at -10 percent: the box reaches past the edge of the tile
    and nothing clamps it. *)
Lemma edge_box_leaves_range :
  (forall n req,
     Forall (fields_within (img_width (req_data req)) (img_height (req_data req)))
            (get (json_predictions (service_edge_box n req)) []))
  /\ exists h w',
       detect_holds service_edge_box (plain_image 30 30) "key" (1 # 2) (World 0 [])
       = (Return [h], w')
       /\ hold_polygon h !! 0%nat = Some (Point (-1000 # 100) (-1000 # 100))
       /\ ~ hold_in_range h.
Proof.
  split.
  - intros n req. unfold service_edge_box.
    destruct (n =? 0)%nat; [|constructor].
    destruct (Z.leb_spec 10 (img_width (req_data req))) as [Hw|]; [|constructor].
    destruct (Z.leb_spec 10 (img_height (req_data req))) as [Hh|]; [|constructor].
    rewrite Zle_Qle in Hw, Hh. change (inject_Z 10) with 10%Q in Hw, Hh.
    cbn. constructor; [|constructor]. unfold fields_within. cbn.
    repeat split; cbn; qlra.
  - eexists _, _. split; [vm_compute; reflexivity|]. split; [reflexivity|].
    intros [Hpoly _]. apply Forall_cons in Hpoly as [[[Hx _] _] _].
    revert Hx. vm_compute. intros Hx. by apply Hx.
Qed.

(** * Further properties *)

(** ** The retry loop of [call_api] in general *)

Lemma range_nil n : n <= 0 -> Py.range n = [].
Proof.
  intros H. unfold Py.range, Py.range2.
  by replace (Z.to_nat (n - 0)) with 0%nat by lia.
Qed.

(** [range(a, b)] step by step. *)
Lemma range2_cons a b : a < b -> Py.range2 a b = a :: Py.range2 (a + 1) b.
Proof.
  intros H. unfold Py.range2.
  replace (Z.to_nat (b - a)) with (S (Z.to_nat (b - (a + 1)))) by lia.
  cbn [seq map]. f_equal; [lia|].
  rewrite <- seq_shift, map_map. apply map_ext. intros k. lia.
Qed.

Lemma range2_nil a b : b <= a -> Py.range2 a b = [].
Proof.
  intros H. unfold Py.range2. by replace (Z.to_nat (b - a)) with 0%nat by lia.
Qed.

Lemma range2_snoc a b : a <= b -> Py.range2 a (b + 1) = Py.range2 a b ++ [b].
Proof.
  intros H. unfold Py.range2.
  replace (Z.to_nat (b + 1 - a)) with (Z.to_nat (b - a) + 1)%nat by lia.
  rewrite seq_app, map_app. cbn. f_equal. f_equal. lia.
Qed.

Section RetryLoop.

Variable service : nat -> request -> response.
Variable req : request.
Variable max_retries : Z.

(** The loop from attempt [a] on: how it ends, what it posted and how long
    it waited.  The responses before the last one were all server errors;
    the last one is a success, a status below 500, or the response to the
    final attempt. *)
Lemma call_api_loop_trace (len : nat) :
  forall a w r w',
    (1 <= len)%nat -> 0 <= a -> a + Z.of_nat len = max_retries ->
    call_api_loop service req max_retries (Py.range2 a max_retries) w = (r, w') ->
    exists k : nat,
      (1 <= k <= len)%nat
      /\ posts w' = (posts w + k)%nat
      /\ sleeps w' = sleeps w ++ map (fun attempt => 2 ^ attempt)
                                     (Py.range2 a (a + Z.of_nat k - 1))
      /\ (forall m, (posts w <= m < posts w + k - 1)%nat ->
                    500 <= status_code (service m req))
      /\ let last := service (posts w + k - 1)%nat req in
         match r with
         | Return predictions =>
             status_code last = 200
             /\ predictions = get (json_predictions last) []
         | Raise e =>
             e = APIError (status_code last) (text last)
             /\ status_code last <> 200
             /\ (status_code last < 500 \/ Z.of_nat k = Z.of_nat len)
         end.
Proof.
  induction len as [|len IH]; intros a w r w' Hlen Ha Hsum Hrun; [lia|].
  rewrite range2_cons in Hrun by lia. cbn [call_api_loop] in Hrun.
  unfold bind, post in Hrun. cbn in Hrun.
  assert (forall r0,
            (r, w') = (r0, {| posts := S (posts w); sleeps := sleeps w |}) ->
            match r0 with
            | Return predictions =>
                status_code (service (posts w) req) = 200
                /\ predictions = get (json_predictions (service (posts w) req)) []
            | Raise e =>
                e = APIError (status_code (service (posts w) req))
                             (text (service (posts w) req))
                /\ status_code (service (posts w) req) <> 200
                /\ (status_code (service (posts w) req) < 500 \/ len = 0%nat)
            end ->
            exists k : nat, (1 <= k <= S len)%nat
              /\ posts w' = (posts w + k)%nat
              /\ sleeps w' = sleeps w ++ map (fun attempt => 2 ^ attempt)
                                             (Py.range2 a (a + Z.of_nat k - 1))
              /\ (forall m, (posts w <= m < posts w + k - 1)%nat ->
                            500 <= status_code (service m req))
              /\ let last := service (posts w + k - 1)%nat req in
                 match r with
                 | Return predictions =>
                     status_code last = 200
                     /\ predictions = get (json_predictions last) []
                 | Raise e =>
                     e = APIError (status_code last) (text last)
                     /\ status_code last <> 200
                     /\ (status_code last < 500 \/ Z.of_nat k = Z.of_nat (S len))
                 end) as Hone.
  { intros r0 Heq Hr0. injection Heq as -> ->. exists 1%nat. cbn [posts sleeps].
    replace (posts w + 1 - 1)%nat with (posts w) by lia.
    rewrite range2_nil by lia. rewrite app_nil_r.
    split; [lia|]. split; [lia|]. split; [done|]. split; [intros m Hm; lia|].
    cbn zeta. destruct r0; [done|]. destruct Hr0 as (? & ? & [?|?]).
    - repeat split; auto.
    - repeat split; auto; right; lia. }
  destruct (Z.eqb_spec (status_code (service (posts w) req)) 200) as [H200|H200].
  { unfold ret in Hrun. symmetry in Hrun. by eapply Hone. }
  destruct (Z.leb_spec 500 (status_code (service (posts w) req))) as [H500|H500];
    destruct (Z.ltb_spec a (max_retries - 1)) as [Hmore|Hlast]; cbn in Hrun.
  - clear Hone. unfold sleep in Hrun. cbn in Hrun.
    destruct (IH (a + 1) _ r w' ltac:(lia) ltac:(lia) ltac:(lia) Hrun)
      as (k & Hk & Hposts & Hsleeps & Hbefore & Hlastk).
    cbn [posts sleeps] in *. exists (S k).
    replace (posts w + S k - 1)%nat with (S (posts w) + k - 1)%nat by lia.
    split; [lia|]. split; [lia|]. split; [|split].
    + rewrite Hsleeps, <- app_assoc. f_equal.
      rewrite (range2_cons a) by lia. cbn [map app]. do 3 f_equal. lia.
    + intros m Hm. destruct (decide (m = posts w)) as [->|]; [done|].
      apply Hbefore. lia.
    + destruct r; [done|]. destruct Hlastk as (? & ? & Hor).
      repeat split; try done. lia.
  - unfold raise in Hrun. symmetry in Hrun. eapply Hone; [exact Hrun|].
    repeat split; auto. right. lia.
  - unfold raise in Hrun. symmetry in Hrun. eapply Hone; [exact Hrun|].
    repeat split; auto.
  - unfold raise in Hrun. symmetry in Hrun. eapply Hone; [exact Hrun|].
    repeat split; auto.
Qed.

End RetryLoop.

(** X1.  [call_api] on a tile that is not empty returns the empty list
    without posting a request or waiting when [max_retries] is zero or
    negative, and only then: with one attempt or more allowed, every call
    posts at least one request, so its outcome comes from within the loop
    and the [return []] after the loop is not reached. *)
Theorem call_api_no_attempt service tile api_key confidence max_retries w r w' :
  1 <= img_width tile -> 1 <= img_height tile ->
  call_api service tile api_key confidence max_retries w = (r, w') ->
  (max_retries <= 0 -> r = Return [] /\ w' = w)
  /\ (1 <= max_retries -> (posts w < posts w')%nat).
Proof.
  intros _ _ Hrun. unfold call_api in Hrun. split.
  - intros Hle. rewrite range_nil in Hrun by done. cbn in Hrun.
    unfold ret in Hrun. by simplify_eq.
  - intros Hge.
    destruct (call_api_loop_trace service _ max_retries (Z.to_nat max_retries)
                0 w r w' ltac:(lia) ltac:(lia) ltac:(lia) Hrun)
      as (k & Hk & Hposts & _).
    lia.
Qed.

Lemma call_api_no_attempt_witness :
  call_api service_down (plain_image 13 13) "key" (1 # 2) 0 (World 0 [])
  = (Return [], World 0 []).
Proof.
  destruct (call_api service_down (plain_image 13 13) "key" (1 # 2) 0 (World 0 []))
    as [r w'] eqn:E.
  destruct (call_api_no_attempt service_down (plain_image 13 13) "key" (1 # 2) 0
              (World 0 []) r w' ltac:(cbn; lia) ltac:(cbn; lia) E) as [H _].
  by destruct (H ltac:(lia)) as [-> ->].
Defined.

(** X2.  Every call of [call_api] with at least one attempt allowed ends
    after [k] requests, [1 <= k <= max_retries], having waited exactly
    [2 ** 0, ..., 2 ** (k - 2)] seconds, once after each request but the
    last; the responses before the last were all server errors.  It returns
    only the predictions of a last response of status 200 (the empty list
    if that response has no ["predictions"]), and it raises only the API
    error of a last response that is not a 200 and is either below 500 or
    the response to the final attempt. *)
Theorem call_api_trace service tile api_key confidence max_retries w r w' :
  1 <= max_retries ->
  call_api service tile api_key confidence max_retries w = (r, w') ->
  let req := api_request tile api_key confidence in
  exists k : nat,
    1 <= Z.of_nat k <= max_retries
    /\ posts w' = (posts w + k)%nat
    /\ sleeps w' = sleeps w ++ backoff (Z.of_nat k - 1)
    /\ (forall m, (posts w <= m < posts w + k - 1)%nat ->
                  500 <= status_code (service m req))
    /\ let last := service (posts w + k - 1)%nat req in
       match r with
       | Return predictions =>
           status_code last = 200
           /\ predictions = get (json_predictions last) []
       | Raise e =>
           e = APIError (status_code last) (text last)
           /\ status_code last <> 200
           /\ (status_code last < 500 \/ Z.of_nat k = max_retries)
       end.
Proof.
  intros Hn Hrun req. unfold call_api in Hrun. fold req in Hrun.
  destruct (call_api_loop_trace service req max_retries (Z.to_nat max_retries)
              0 w r w' ltac:(lia) ltac:(lia) ltac:(lia) Hrun)
    as (k & Hk & Hposts & Hsleeps & Hbefore & Hlast).
  exists k. split; [lia|]. split; [done|]. split; [|split; [done|]].
  - rewrite Hsleeps. unfold backoff, Py.range. do 3 f_equal.
  - cbn zeta in *. destruct r; [done|].
    destruct Hlast as (? & ? & [?|?]); repeat split; auto. right. lia.
Qed.

Lemma call_api_trace_witness :
  exists k : nat,
    1 <= Z.of_nat k <= 3
    /\ posts (World 3 [1; 2]) = (0 + k)%nat
    /\ sleeps (World 3 [1; 2]) = [] ++ backoff (Z.of_nat k - 1).
Proof.
  destruct (call_api_trace service_recovers (plain_image 13 13) "key" (1 # 2) 3
              (World 0 []) (Return [chain_a]) (World 3 [1; 2])
              ltac:(lia) ltac:(reflexivity))
    as (k & H1 & H2 & H3 & _).
  by exists k.
Defined.

(** X3.  Whatever the number of attempts allowed, when every one of them
    gets a server error, [call_api] posts [max_retries] requests, waits
    [2 ** 0, ..., 2 ** (max_retries - 2)] seconds and raises the API error
    of the last response: it never returns an empty list for an exhausted
    tile. *)
Theorem call_api_exhausted_in_general service tile api_key confidence max_retries w :
  1 <= max_retries ->
  let req := api_request tile api_key confidence in
  (forall m, (posts w <= m < posts w + Z.to_nat max_retries)%nat ->
             500 <= status_code (service m req)) ->
  let last := service (posts w + Z.to_nat max_retries - 1)%nat req in
  call_api service tile api_key confidence max_retries w
  = (Raise (APIError (status_code last) (text last)),
     {| posts := (posts w + Z.to_nat max_retries)%nat;
        sleeps := sleeps w ++ backoff (max_retries - 1) |}).
Proof.
  intros Hn req Hall last.
  destruct (call_api service tile api_key confidence max_retries w)
    as [r w'] eqn:Hrun.
  unfold call_api in Hrun. fold req in Hrun.
  destruct (call_api_loop_trace service req max_retries (Z.to_nat max_retries)
              0 w r w' ltac:(lia) ltac:(lia) ltac:(lia) Hrun)
    as (k & Hk & Hposts & Hsleeps & _ & Hlast).
  cbn zeta in Hlast.
  pose proof (Hall (posts w + k - 1)%nat ltac:(lia)) as H500.
  destruct r as [predictions|e].
  - destruct Hlast as [H200 _]. lia.
  - destruct Hlast as (-> & _ & [Hlt|Heq]); [lia|].
    assert (k = Z.to_nat max_retries) as -> by lia.
    destruct w' as [p s]. cbn in Hposts, Hsleeps. subst p s.
    unfold last, backoff, Py.range.
    by replace (0 + Z.of_nat (Z.to_nat max_retries) - 1) with (max_retries - 1) by lia.
Qed.

Lemma call_api_exhausted_in_general_witness :
  call_api service_down (plain_image 13 13) "key" (1 # 2) 5 (World 0 [])
  = (Raise (APIError 503 "Service Unavailable"), World 5 [1; 2; 4; 8]).
Proof.
  apply (call_api_exhausted_in_general service_down (plain_image 13 13) "key"
           (1 # 2) 5 (World 0 [])); [lia|].
  intros m _. cbn. lia.
Defined.

(** ** The deduplicator: what is kept and what is dropped *)

Lemma select_sublist ps keep : select ps keep `sublist_of` ps.
Proof.
  revert keep. induction ps as [|p ps IH]; intros keep.
  - by destruct keep.
  - destruct keep as [|k ks]; [apply sublist_nil_l|].
    rewrite select_cons. destruct k.
    + by apply sublist_skip.
    + by apply sublist_cons.
Qed.

Lemma filter_sublist {A} (f : A -> bool) (l : list A) :
  List.filter f l `sublist_of` l.
Proof.
  induction l as [|x l IH]; cbn; [done|].
  destruct (f x); [by apply sublist_skip|by apply sublist_cons].
Qed.

Lemma select_elem ps keep m p :
  ps !! m = Some p -> keep !! m = Some true -> p ∈ select ps keep.
Proof.
  revert keep m. induction ps as [|p0 ps IH]; intros keep m Hp Hk; [done|].
  destruct keep as [|k ks]; [done|]. rewrite select_cons.
  destruct m as [|m]; cbn in Hp, Hk.
  - simplify_eq. apply list_elem_of_here.
  - specialize (IH ks m Hp Hk). destruct k; [by apply list_elem_of_further|done].
Qed.

Lemma dedup_unfold predictions threshold :
  deduplicate_predictions predictions threshold
  = select (drop_empty predictions) (final_keep (drop_empty predictions) threshold).
Proof. unfold deduplicate_predictions. by destruct predictions. Qed.

(** X4.  The output of the deduplication is a subsequence of its input: the
    same detections, unchanged, in their input order, none invented or
    duplicated; and none of them has an empty polygon. *)
Theorem dedup_is_subsequence predictions threshold :
  deduplicate_predictions predictions threshold `sublist_of` predictions
  /\ (length (deduplicate_predictions predictions threshold)
      <= length predictions)%nat
  /\ Forall (fun p => pred_points p <> Some [])
            (deduplicate_predictions predictions threshold).
Proof.
  assert (deduplicate_predictions predictions threshold `sublist_of` predictions)
    as Hsub.
  { rewrite dedup_unfold. etransitivity; [apply select_sublist|].
    apply filter_sublist. }
  split; [done|]. split; [by apply sublist_length|].
  apply Forall_forall. intros p Hp Hempty.
  apply dedup_no_empty in Hp. unfold empty_points in Hp. by rewrite Hempty in Hp.
Qed.

Section Confidence.

Variable predictions : list prediction.
Variable threshold : Q.

(** The tests of the loops in terms of the detections at the indices. *)
Lemma conf_ge_lookup i j p q :
  predictions !! i = Some p -> predictions !! j = Some q ->
  conf_ge predictions i j = true <-> (confidence_of q <= confidence_of p)%Q.
Proof.
  intros Hi Hj. unfold conf_ge, confidence_of.
  rewrite (list_lookup_total_correct _ _ _ Hi), (list_lookup_total_correct _ _ _ Hj).
  apply Qle_bool_iff.
Qed.

Lemma close_lookup i j p q :
  predictions !! i = Some p -> predictions !! j = Some q ->
  close predictions threshold i j = dist_lt (center_of p) (center_of q) threshold.
Proof.
  intros Hi Hj. unfold close.
  by rewrite (centers_lookup _ _ _ Hi), (centers_lookup _ _ _ Hj).
Qed.

(** The first detection of maximal confidence never loses a comparison. *)
Lemma first_max_kept m p :
  predictions !! m = Some p ->
  (forall j q, predictions !! j = Some q -> confidence_of q <= confidence_of p)%Q ->
  (forall j q, (j < m)%nat -> predictions !! j = Some q ->
               confidence_of q < confidence_of p)%Q ->
  final_keep predictions threshold !! m = Some true.
Proof.
  intros Hm Hmax Hfirst.
  pose proof (lookup_lt_Some _ _ _ Hm) as Hlt.
  rewrite <- (final_keep_length predictions threshold) in Hlt.
  destruct (lookup_kept_cases _ _ Hlt) as [|Hfalse]; [done|]. exfalso.
  apply final_keep_cleared_iff in Hfalse
    as (i & j & Hij & _ & _ & Hloser).
  destruct (lookup_lt_is_Some_2 predictions i ltac:(lia)) as [pi Hpi].
  destruct (lookup_lt_is_Some_2 predictions j ltac:(lia)) as [pj Hpj].
  unfold loser in Hloser.
  destruct (conf_ge predictions i j) eqn:Hge.
  - subst m. simplify_eq. apply (conf_ge_lookup i j pi p Hpi Hm) in Hge.
    pose proof (Hfirst i pi ltac:(lia) Hpi). qlra.
  - subst m. simplify_eq.
    assert (~ (confidence_of pj <= confidence_of p)%Q) as Hnot.
    { intros Hle. apply (conf_ge_lookup i j p pj Hm Hpj) in Hle. congruence. }
    apply Hnot. by eapply Hmax.
Qed.

End Confidence.

Lemma exists_first_max (l : list prediction) :
  l <> [] ->
  exists m p, l !! m = Some p
    /\ (forall j q, l !! j = Some q -> confidence_of q <= confidence_of p)%Q
    /\ (forall j q, (j < m)%nat -> l !! j = Some q ->
                    confidence_of q < confidence_of p)%Q.
Proof.
  induction l as [|x l IH]; intros Hne; [done|].
  destruct l as [|y l'].
  { exists 0%nat, x. split; [done|]. split.
    - intros [|j] q Hq; cbn in Hq; [|done]. simplify_eq. qlra.
    - intros j q Hj. lia. }
  destruct (IH ltac:(done)) as (m & p & Hp & Hmax & Hfirst).
  destruct (Qlt_le_dec (confidence_of x) (confidence_of p)) as [Hlt|Hle].
  - exists (S m), p. split; [done|]. split.
    + intros [|j] q Hq; cbn in Hq; [simplify_eq; qlra|by eapply Hmax].
    + intros [|j] q Hj Hq; cbn in Hq; [by simplify_eq|].
      eapply (Hfirst j); [lia|done].
  - exists 0%nat, x. split; [done|]. split.
    + intros [|j] q Hq; cbn in Hq; [simplify_eq; qlra|].
      pose proof (Hmax j q Hq). qlra.
    + intros j q Hj. lia.
Qed.

(** X5.  A detection of maximal confidence among the detections with a
    non-empty polygon, the first one if several share the maximum, always
    survives, whatever the threshold and wherever the other detections
    are. *)
Theorem dedup_keeps_most_confident predictions threshold m p :
  drop_empty predictions !! m = Some p ->
  (forall j q, drop_empty predictions !! j = Some q ->
               confidence_of q <= confidence_of p)%Q ->
  (forall j q, (j < m)%nat -> drop_empty predictions !! j = Some q ->
               confidence_of q < confidence_of p)%Q ->
  p ∈ deduplicate_predictions predictions threshold.
Proof.
  intros Hm Hmax Hfirst. rewrite dedup_unfold.
  apply (select_elem _ _ m p); [done|]. by apply (first_max_kept _ _ m p).
Qed.

Lemma dedup_keeps_most_confident_witness :
  chain_a ∈ deduplicate_predictions chain 20.
Proof.
  apply (dedup_keeps_most_confident chain 20 0 chain_a); [reflexivity| |].
  - intros [|[|[|j]]] q Hq; cbn in Hq; simplify_eq; vm_compute; discriminate.
  - intros j q Hj. lia.
Defined.

(** X6.  The deduplication never returns an empty list when some detection
    has a non-empty polygon or is box-form: at least one detection
    survives. *)
Theorem dedup_keeps_one predictions threshold :
  drop_empty predictions <> [] ->
  deduplicate_predictions predictions threshold <> [].
Proof.
  intros Hne.
  destruct (exists_first_max _ Hne) as (m & p & Hm & Hmax & Hfirst).
  assert (p ∈ deduplicate_predictions predictions threshold) as Hin.
  { rewrite dedup_unfold. apply (select_elem _ _ m p); [done|].
    by apply (first_max_kept _ _ m p). }
  intros Hnil. rewrite Hnil in Hin. by apply elem_of_nil in Hin.
Qed.

Lemma dedup_keeps_one_witness : deduplicate_predictions chain (10000 # 1) <> [].
Proof. apply dedup_keeps_one. discriminate. Defined.

(** X7.  A detection is dropped by the comparison loops only if another
    detection lies within the threshold of it and is at least as confident,
    and strictly more confident when it comes later in the list. *)
Theorem dedup_drops_only_rivalled predictions threshold k p :
  drop_empty predictions !! k = Some p ->
  final_keep (drop_empty predictions) threshold !! k = Some false ->
  exists m q,
    m <> k /\ drop_empty predictions !! m = Some q
    /\ dist_lt (center_of p) (center_of q) threshold = true
    /\ (confidence_of p <= confidence_of q)%Q
    /\ ((k < m)%nat -> (confidence_of p < confidence_of q)%Q).
Proof.
  set (kept := drop_empty predictions). intros Hk Hfalse.
  apply final_keep_cleared_iff in Hfalse as (i & j & Hij & _ & Hnear & Hloser).
  destruct (lookup_lt_is_Some_2 kept i ltac:(lia)) as [pi Hpi].
  destruct (lookup_lt_is_Some_2 kept j ltac:(lia)) as [pj Hpj].
  rewrite (close_lookup kept threshold i j pi pj Hpi Hpj) in Hnear.
  unfold loser in Hloser. destruct (conf_ge kept i j) eqn:Hge.
  - subst k. simplify_eq. exists i, pi.
    apply (conf_ge_lookup kept i j pi p Hpi Hk) in Hge.
    rewrite dist_lt_sym. repeat split; auto; lia.
  - subst k. simplify_eq. exists j, pj.
    assert (confidence_of p < confidence_of pj)%Q as Hlt.
    { apply Qnot_le_lt. intros Hle.
      apply (conf_ge_lookup kept i j p pj Hk Hpj) in Hle. congruence. }
    repeat split; auto; [lia|qlra].
Qed.

Lemma dedup_drops_only_rivalled_witness :
  exists m q,
    m <> 1%nat /\ drop_empty chain !! m = Some q
    /\ dist_lt (center_of chain_b) (center_of q) 20 = true
    /\ (confidence_of chain_b <= confidence_of q)%Q
    /\ ((1 < m)%nat -> (confidence_of chain_b < confidence_of q)%Q).
Proof.
  apply (dedup_drops_only_rivalled chain 20 1 chain_b); reflexivity.
Defined.

(** When no comparison can succeed the loops clear nothing. *)
Lemma dedup_far_apart predictions threshold :
  (forall a b pa pb, (a < b)%nat ->
     drop_empty predictions !! a = Some pa ->
     drop_empty predictions !! b = Some pb ->
     dist_lt (center_of pa) (center_of pb) threshold = false) ->
  deduplicate_predictions predictions threshold = drop_empty predictions.
Proof.
  intros Hfar. rewrite dedup_unfold.
  unfold final_keep. rewrite outer_loop_id; [apply select_all|].
  intros i j Hij.
  destruct (lookup_lt_is_Some_2 (drop_empty predictions) i ltac:(lia)) as [pa Ha].
  destruct (lookup_lt_is_Some_2 (drop_empty predictions) j ltac:(lia)) as [pb Hb].
  rewrite (close_lookup _ _ i j pa pb Ha Hb).
  apply (Hfar i j pa pb); [lia|done|done].
Qed.

(** X8.  The deduplication removes the detections with an empty polygon and
    nothing else exactly when the distance test of the loop fails on every
    pair of detections with a non-empty geometry, the earlier one taken
    first. *)
Theorem dedup_keeps_separated predictions threshold :
  deduplicate_predictions predictions threshold = drop_empty predictions
  <-> (forall a b pa pb, (a < b)%nat ->
         drop_empty predictions !! a = Some pa ->
         drop_empty predictions !! b = Some pb ->
         dist_lt (center_of pa) (center_of pb) threshold = false).
Proof.
  split.
  - intros Heq a b pa pb Hab Ha Hb.
    apply (dedup_survivors_apart predictions threshold a b);
      [done| |]; by rewrite Heq.
  - apply dedup_far_apart.
Qed.

(** X9.  With a threshold that is zero or negative no distance is below it:
    the deduplication removes the detections with an empty polygon and
    nothing else, also detections with one and the same center. *)
Theorem dedup_threshold_not_positive predictions threshold :
  (threshold <= 0)%Q ->
  deduplicate_predictions predictions threshold = drop_empty predictions.
Proof.
  intros Ht. apply dedup_far_apart. intros a b pa pb _ _ _.
  unfold dist_lt. apply sqrt_lt_false. by left.
Qed.

Lemma dedup_threshold_not_positive_witness :
  deduplicate_predictions [chain_a; chain_a] 0 = [chain_a; chain_a].
Proof.
  apply (dedup_threshold_not_positive [chain_a; chain_a] 0). discriminate.
Defined.

(** X10.  In a cluster, detections with a non-empty geometry whose centers
    are all within the threshold of each other, exactly one detection
    survives: the one of maximal confidence, the first of them if several
    share the maximum. *)
Theorem dedup_cluster_keeps_best predictions threshold m p :
  drop_empty predictions !! m = Some p ->
  (forall j q, drop_empty predictions !! j = Some q ->
               confidence_of q <= confidence_of p)%Q ->
  (forall j q, (j < m)%nat -> drop_empty predictions !! j = Some q ->
               confidence_of q < confidence_of p)%Q ->
  (forall q r, q ∈ drop_empty predictions -> r ∈ drop_empty predictions ->
               dist_lt (center_of q) (center_of r) threshold = true) ->
  deduplicate_predictions predictions threshold = [p].
Proof.
  intros Hm Hmax Hfirst Hnear.
  assert (p ∈ deduplicate_predictions predictions threshold) as Hin.
  { rewrite dedup_unfold. apply (select_elem _ _ m p); [done|].
    by apply (first_max_kept _ _ m p). }
  assert (forall q, q ∈ deduplicate_predictions predictions threshold ->
                    q ∈ drop_empty predictions) as Hsub.
  { intros q Hq. apply (elem_of_sublist _ _ _ Hq).
    rewrite dedup_unfold. apply select_sublist. }
  pose proof (dedup_survivors_apart predictions threshold) as Hapart.
  destruct (deduplicate_predictions predictions threshold) as [|a [|b l]].
  - by apply elem_of_nil in Hin.
  - apply list_elem_of_singleton in Hin. by subst.
  - exfalso. specialize (Hapart 0%nat 1%nat a b ltac:(lia) eq_refl eq_refl).
    rewrite Hnear in Hapart; [done| |]; apply Hsub.
    + apply list_elem_of_here.
    + apply list_elem_of_further, list_elem_of_here.
Qed.

Lemma dedup_cluster_keeps_best_witness :
  deduplicate_predictions [chain_b; chain_a; chain_b] 20 = [chain_a].
Proof.
  apply (dedup_cluster_keeps_best [chain_b; chain_a; chain_b] 20 1 chain_a).
  - reflexivity.
  - intros [|[|[|j]]] q Hq; cbn in Hq; simplify_eq; vm_compute; discriminate.
  - intros [|j] q Hj Hq; cbn in Hq; [|lia]. simplify_eq. reflexivity.
  - intros q r Hq Hr. apply list_elem_of_In in Hq, Hr. cbn in Hq, Hr.
    destruct Hq as [<-|[<-|[<-|[]]]], Hr as [<-|[<-|[<-|[]]]]; reflexivity.
Defined.

(** ** The coordinate mapper *)

Lemma adjust_prediction_fields x1 y1 pred pred' :
  adjust_prediction x1 y1 pred = Return pred' ->
  pred_confidence pred' = pred_confidence pred
  /\ pred_class pred' = pred_class pred
  /\ pred_width pred' = pred_width pred
  /\ pred_height pred' = pred_height pred
  /\ length <$> pred_points pred' = length <$> pred_points pred.
Proof.
  unfold adjust_prediction.
  destruct (pred_points pred) as [pts|] eqn:Epts.
  - intros Heq. simplify_eq. cbn. repeat split. by rewrite length_map.
  - destruct (pred_x pred) as [x|]; [|done].
    destruct (pred_y pred) as [y|]; [|done].
    intros Heq. simplify_eq. by cbn.
Qed.

Lemma adjust_all_lookup x1 y1 predictions predictions' :
  adjust_all x1 y1 predictions = Return predictions' ->
  length predictions' = length predictions
  /\ forall i pred pred',
       predictions !! i = Some pred -> predictions' !! i = Some pred' ->
       adjust_prediction x1 y1 pred = Return pred'.
Proof.
  revert predictions'.
  induction predictions as [|p rest IH]; intros predictions' Hadj; cbn in Hadj.
  - simplify_eq. by split.
  - destruct (adjust_prediction x1 y1 p) as [p'|] eqn:E; [|done].
    destruct (adjust_all x1 y1 rest) as [rest'|]; [|done].
    simplify_eq. destruct (IH rest' eq_refl) as [Hlen Hat]. split.
    + cbn. by rewrite Hlen.
    + intros [|i] pred pred' Hi Hi'; cbn in Hi, Hi'; [by simplify_eq|].
      by apply (Hat i).
Qed.

(** The mapper raises at the first detection on which its body raises. *)
Lemma adjust_all_first_raise x1 y1 predictions i pred e :
  predictions !! i = Some pred ->
  (forall j q, (j < i)%nat -> predictions !! j = Some q ->
     exists q', adjust_prediction x1 y1 q = Return q') ->
  adjust_prediction x1 y1 pred = Raise e ->
  adjust_all x1 y1 predictions = Raise e.
Proof.
  revert i. induction predictions as [|p rest IH]; intros i Hi Hbefore He; [done|].
  cbn [adjust_all]. destruct i as [|i]; cbn in Hi.
  - simplify_eq. by rewrite He.
  - destruct (Hbefore 0%nat p ltac:(lia) eq_refl) as [p' ->].
    assert (adjust_all x1 y1 rest = Raise e) as ->; [|done].
    apply (IH i Hi); [|done].
    intros j q Hj Hq. by apply (Hbefore (S j) q ltac:(lia)).
Qed.

(** X11.  In a response whose detections are box-form (without
    ["points"]) up to the first one that lacks ["x"] or ["y"], the mapper
    raises the [KeyError] of the missing key, of ["x"] when both are
    missing, although the deduplicator and the assembler would read these
    keys with the default 0. *)
Theorem adjust_all_key_error x1 y1 predictions i pred :
  predictions !! i = Some pred ->
  (forall j q, (j < i)%nat -> predictions !! j = Some q ->
     pred_points q = None /\ is_Some (pred_x q) /\ is_Some (pred_y q)) ->
  pred_points pred = None ->
  (pred_x pred = None ->
   adjust_all x1 y1 predictions = Raise (KeyError "x"))
  /\ (is_Some (pred_x pred) -> pred_y pred = None ->
      adjust_all x1 y1 predictions = Raise (KeyError "y")).
Proof.
  intros Hi Hbefore Hnone.
  assert (forall j q, (j < i)%nat -> predictions !! j = Some q ->
            exists q', adjust_prediction x1 y1 q = Return q') as Hret.
  { intros j q Hj Hq. destruct (Hbefore j q Hj Hq) as (Hq0 & [x Hx] & [y Hy]).
    unfold adjust_prediction. rewrite Hq0, Hx, Hy. by eexists. }
  split.
  - intros Hx. apply (adjust_all_first_raise x1 y1 predictions i pred); [done..|].
    unfold adjust_prediction. by rewrite Hnone, Hx.
  - intros [x Hx] Hy.
    apply (adjust_all_first_raise x1 y1 predictions i pred); [done..|].
    unfold adjust_prediction. by rewrite Hnone, Hx, Hy.
Qed.

Lemma adjust_all_key_error_witness :
  adjust_all 15 3 [edge_box; Prediction None None (Some 1%Q) None None None None]
  = Raise (KeyError "x").
Proof.
  assert (forall j q, (j < 1)%nat ->
            [edge_box; Prediction None None (Some 1%Q) None None None None] !! j
            = Some q ->
            pred_points q = None /\ is_Some (pred_x q) /\ is_Some (pred_y q))
    as Hbefore.
  { intros [|j] q Hj Hq; [|lia]. cbn in Hq. simplify_eq.
    repeat split; by eexists. }
  exact (proj1 (adjust_all_key_error 15 3
                  [edge_box; Prediction None None (Some 1%Q) None None None None]
                  1 (Prediction None None (Some 1%Q) None None None None)
                  eq_refl Hbefore eq_refl) eq_refl).
Defined.

(** X12.  When the mapper returns, it returns as many detections as it got,
    in the same order; each keeps its confidence, class, width and height
    and its form: a box stays a box and a polygon keeps the number of its
    vertices. *)
Theorem adjust_all_keeps_fields x1 y1 predictions predictions' :
  adjust_all x1 y1 predictions = Return predictions' ->
  length predictions' = length predictions
  /\ forall i pred pred',
       predictions !! i = Some pred -> predictions' !! i = Some pred' ->
       pred_confidence pred' = pred_confidence pred
       /\ pred_class pred' = pred_class pred
       /\ pred_width pred' = pred_width pred
       /\ pred_height pred' = pred_height pred
       /\ length <$> pred_points pred' = length <$> pred_points pred.
Proof.
  intros Hadj. destruct (adjust_all_lookup _ _ _ _ Hadj) as [Hlen Hat].
  split; [done|]. intros i pred pred' Hi Hi'.
  by apply (adjust_prediction_fields x1 y1), (Hat i).
Qed.

Lemma adjust_all_keeps_fields_witness :
  length [box_detection 17 5 10 10 (9 # 10)] = length [edge_box]
  /\ forall i pred pred',
       [edge_box] !! i = Some pred ->
       [box_detection 17 5 10 10 (9 # 10)] !! i = Some pred' ->
       pred_confidence pred' = pred_confidence pred
       /\ pred_class pred' = pred_class pred
       /\ pred_width pred' = pred_width pred
       /\ pred_height pred' = pred_height pred
       /\ length <$> pred_points pred' = length <$> pred_points pred.
Proof.
  apply (adjust_all_keeps_fields 15 3 [edge_box]
           [box_detection 17 5 10 10 (9 # 10)]).
  vm_compute. reflexivity.
Defined.

(** ** The tiler on every image size *)

(** The margin is three tenths of the tile size, rounded down. *)
Lemma margin_floor tile_size :
  0 <= tile_size -> Py.int (inject_Z tile_size * overlap) = 3 * tile_size / 10.
Proof.
  intros H. unfold Py.int, overlap. cbn [Qnum Qden Qmult inject_Z].
  change (Z.pos (1 * 10)) with 10. rewrite Z.quot_div_nonneg by lia.
  f_equal. lia.
Qed.

(** X14.  On every size of a working image (at most 4096 pixels, so a tile
    size of at most 1365) the margin that the script computes in binary64,
    [int(tile_size * 0.3)], is three tenths of the tile size rounded down:
    the inexact literal 0.3 and the rounding of the product never change
    the integer. *)
Theorem float_margin_floor size :
  0 <= size <= 4096 ->
  float_margin (size / tile_cols) = 3 * (size / 3) / 10
  /\ Py.int (inject_Z (size / tile_cols) * overlap) = 3 * (size / 3) / 10.
Proof.
  intros H. change tile_cols with 3.
  assert (0 <= size / 3 <= 4096 / 3) as Ht.
  { split; [apply Z.div_pos; lia|apply Z.div_le_mono; lia]. }
  rewrite float_margin_exact by exact Ht.
  split; apply margin_floor; lia.
Qed.

Lemma float_margin_floor_witness :
  float_margin (4000 / tile_cols) = 3 * (4000 / 3) / 10
  /\ Py.int (inject_Z (4000 / tile_cols) * overlap) = 3 * (4000 / 3) / 10.
Proof. apply (float_margin_floor 4000). lia. Defined.

Lemma tiles_unfold width height :
  tiles width height
  = [ tile_bounds width height 0 0; tile_bounds width height 0 1;
      tile_bounds width height 0 2; tile_bounds width height 1 0;
      tile_bounds width height 1 1; tile_bounds width height 1 2;
      tile_bounds width height 2 0; tile_bounds width height 2 1;
      tile_bounds width height 2 2 ].
Proof. reflexivity. Qed.

Lemma in_tile_axes width height row col x y :
  in_tile x y (tile_bounds width height row col)
  = axis_in width col x && axis_in height row y.
Proof.
  unfold tile_bounds, in_tile, axis_in. change tile_cols with 3.
  change tile_rows with 3. cbv zeta.
  by destruct (_ <=? x), (x <? _), (_ <=? y), (y <? _).
Qed.

Lemma filter_length_map {A} (f : A -> bool) (l : list A) :
  length (List.filter f l) = length (List.filter (fun b : bool => b) (map f l)).
Proof. induction l as [|a l IH]; cbn; [done|]. destruct (f a); cbn; by rewrite IH. Qed.

Lemma tile_count_axes width height x y :
  tile_count width height x y
  = length (List.filter (fun b : bool => b)
      [ axis_in width 0 x && axis_in height 0 y;
        axis_in width 1 x && axis_in height 0 y;
        axis_in width 2 x && axis_in height 0 y;
        axis_in width 0 x && axis_in height 1 y;
        axis_in width 1 x && axis_in height 1 y;
        axis_in width 2 x && axis_in height 1 y;
        axis_in width 0 x && axis_in height 2 y;
        axis_in width 1 x && axis_in height 2 y;
        axis_in width 2 x && axis_in height 2 y ]).
Proof.
  unfold tile_count. rewrite filter_length_map, tiles_unfold. cbn [map].
  by rewrite !in_tile_axes.
Qed.

(** The size of a grid cell and the margin, in integers. *)
Lemma axis_facts size :
  0 <= size ->
  let tile_size := size / 3 in
  let margin := Py.int (inject_Z tile_size * overlap) in
  3 * tile_size <= size <= 3 * tile_size + 2
  /\ 10 * margin <= 3 * tile_size <= 10 * margin + 9.
Proof.
  intros H tile_size margin. subst margin.
  assert (0 <= tile_size) as Ht by (apply Z.div_pos; lia).
  rewrite (margin_floor _ Ht). subst tile_size.
  pose proof (Z.div_mod size 3 ltac:(lia)).
  pose proof (Z.mod_pos_bound size 3 ltac:(lia)).
  pose proof (Z.div_mod (3 * (size / 3)) 10 ltac:(lia)).
  pose proof (Z.mod_pos_bound (3 * (size / 3)) 10 ltac:(lia)).
  lia.
Qed.

Ltac axis_tests :=
  repeat match goal with
         | |- context [?a <=? ?b] => destruct (Z.leb_spec a b)
         | |- context [?a <? ?b] => destruct (Z.ltb_spec a b)
         end.

(** On an axis of at least 21 pixels a coordinate is in one grid cell's
    interval or in those of two neighbours. *)
Lemma axis_cases size v :
  21 <= size -> 0 <= v < size ->
  let b := (axis_in size 0 v, axis_in size 1 v, axis_in size 2 v) in
  b = (true, false, false) \/ b = (true, true, false)
  \/ b = (false, true, false) \/ b = (false, true, true)
  \/ b = (false, false, true).
Proof.
  intros Hsize Hv. destruct (axis_facts size ltac:(lia)) as [Ht Hm].
  unfold axis_in. cbv zeta in *.
  set (t := size / 3) in *. set (m := Py.int _) in *. clearbody t m.
  axis_tests; cbn; first [lia | auto 8].
Qed.

(** X15.  For every image at least 21 pixels wide and high, every pixel
    lies in one, two or four of the nine tiles, never in none; a pixel
    closer to an inner grid line than the margin lies in at least two. *)
Theorem tiles_cover width height x y :
  21 <= width -> 21 <= height -> 0 <= x < width -> 0 <= y < height ->
  (tile_count width height x y = 1%nat
   \/ tile_count width height x y = 2%nat
   \/ tile_count width height x y = 4%nat)
  /\ (forall line,
        (line = 1 \/ line = 2) ->
        let margin := 3 * (width / 3) / 10 in
        line * (width / 3) - margin <= x < line * (width / 3) + margin ->
        (2 <= tile_count width height x y)%nat).
Proof.
  intros Hw Hh Hx Hy. rewrite tile_count_axes.
  pose proof (axis_cases height y Hh Hy) as Cy. cbv zeta in Cy.
  split.
  - pose proof (axis_cases width x Hw Hx) as Cx. cbv zeta in Cx.
    destruct Cx as [Cx|[Cx|[Cx|[Cx|Cx]]]], Cy as [Cy|[Cy|[Cy|[Cy|Cy]]]];
      injection Cx as -> -> ->; injection Cy as -> -> ->; cbn; auto.
  - intros line Hline margin Hband.
    assert (axis_in width (line - 1) x = true /\ axis_in width line x = true)
      as [Ha Hb].
    { destruct (axis_facts width ltac:(lia)) as [Ht Hm].
      unfold axis_in. cbv zeta in *. subst margin.
      rewrite <- (margin_floor (width / 3)) in Hband
        by (apply Z.div_pos; lia).
      set (t := width / 3) in *. set (m := Py.int _) in *. clearbody t m.
      destruct Hline as [-> | ->]; split; axis_tests; cbn; lia. }
    destruct Hline as [-> | ->];
      [change (1 - 1) with 0 in Ha|change (2 - 1) with 1 in Ha];
      rewrite Ha, Hb;
      destruct Cy as [Cy|[Cy|[Cy|[Cy|Cy]]]]; injection Cy as -> -> ->;
      destruct (axis_in width 2 x), (axis_in width 0 x); cbn; lia.
Qed.

Lemma tiles_cover_witness :
  (tile_count 640 480 200 479 = 1%nat
   \/ tile_count 640 480 200 479 = 2%nat
   \/ tile_count 640 480 200 479 = 4%nat)
  /\ (forall line,
        (line = 1 \/ line = 2) ->
        let margin := 3 * (640 / 3) / 10 in
        line * (640 / 3) - margin <= 200 < line * (640 / 3) + margin ->
        (2 <= tile_count 640 480 200 479)%nat).
Proof. apply (tiles_cover 640 480 200 479); lia. Defined.

(** X16.  The tiles end at three tile sizes plus the margin: when the size
    of an axis is not a multiple of 3 and the margin is smaller than the
    remainder, as on every axis shorter than 12 pixels, the last pixels of
    the axis are in no tile and are never submitted. *)
Theorem tiles_miss_remainder width height x y :
  0 <= width ->
  3 * (width / 3) + 3 * (width / 3) / 10 <= x ->
  tile_count width height x y = 0%nat.
Proof.
  intros Hw Hx. rewrite tile_count_axes.
  assert (0 <= width / 3) as Ht by (apply Z.div_pos; lia).
  rewrite <- (margin_floor (width / 3)) in Hx by exact Ht.
  assert (forall cell, 0 <= cell <= 2 -> axis_in width cell x = false) as Hout.
  { intros cell Hcell. unfold axis_in. cbv zeta.
    set (t := width / 3) in *. set (m := Py.int _) in *. clearbody t m.
    apply andb_false_iff. right. apply Z.ltb_ge. nia. }
  by rewrite !Hout by lia.
Qed.

Lemma tiles_miss_remainder_witness :
  0 <= 19 < 20 /\ forall y, tile_count 20 20 19 y = 0%nat.
Proof.
  split; [lia|]. intros y. apply (tiles_miss_remainder 20 20 19 y);
    [lia|vm_compute; discriminate].
Defined.

(** X17.  In an image at least 3 pixels wide and high every tile submitted
    to the service is a non-empty part of the image: it starts inside the
    image, is at least one pixel and at most eight fifths of a grid cell
    wide and high, ends inside the image, and its pixel [(y, x)] is the
    pixel [(y1 + y, x1 + x)] of the image. *)
Theorem tile_is_part_of_image img row col :
  3 <= img_width img -> 3 <= img_height img ->
  0 <= row <= 2 -> 0 <= col <= 2 ->
  let '(x1, y1, x2, y2) :=
    tile_bounds (img_width img) (img_height img) row col in
  let tile := crop img y1 y2 x1 x2 in
  0 <= x1 /\ 0 <= y1
  /\ img_width tile = x2 - x1 /\ img_height tile = y2 - y1
  /\ 1 <= img_width tile /\ x1 + img_width tile <= img_width img
  /\ 1 <= img_height tile /\ y1 + img_height tile <= img_height img
  /\ 5 * img_width tile <= 8 * (img_width img / 3)
  /\ 5 * img_height tile <= 8 * (img_height img / 3)
  /\ forall y x, img_pixel tile y x = img_pixel img (y1 + y) (x1 + x).
Proof.
  intros Hw Hh Hrow Hcol. unfold tile_bounds, crop, Py.slice_bound.
  change tile_cols with 3. change tile_rows with 3. cbv zeta.
  cbn [img_width img_height img_pixel].
  destruct (axis_facts (img_width img) ltac:(lia)) as [Htw Hmw].
  destruct (axis_facts (img_height img) ltac:(lia)) as [Hth Hmh].
  cbv zeta in *.
  assert (1 <= img_width img / 3)
    by (apply (Z.div_le_mono 3 (img_width img) 3); lia).
  assert (1 <= img_height img / 3)
    by (apply (Z.div_le_mono 3 (img_height img) 3); lia).
  set (tw := img_width img / 3) in *. set (mw := Py.int (inject_Z tw * _)) in *.
  set (th := img_height img / 3) in *. set (mh := Py.int (inject_Z th * _)) in *.
  clearbody tw mw th mh.
  assert (0 <= Z.max 0 (col * tw - mw) <= img_width img) by nia.
  assert (0 <= Z.min (img_width img) ((col + 1) * tw + mw) <= img_width img)
    by nia.
  assert (0 <= Z.max 0 (row * th - mh) <= img_height img) by nia.
  assert (0 <= Z.min (img_height img) ((row + 1) * th + mh) <= img_height img)
    by nia.
  assert (col = 0 \/ col = 1 \/ col = 2) as Hc by lia.
  assert (row = 0 \/ row = 1 \/ row = 2) as Hr by lia.
  axis_tests; try lia.
  rewrite !(Z.min_l (Z.max 0 _) _), !(Z.min_l (Z.min _ _) _) by lia.
  repeat split; try reflexivity;
    destruct Hc as [-> | [-> | ->]], Hr as [-> | [-> | ->]]; lia.
Qed.

Lemma tile_is_part_of_image_witness :
  let '(x1, y1, x2, y2) := tile_bounds 30 30 1 2 in
  let tile := crop (plain_image 30 30) y1 y2 x1 x2 in
  0 <= x1 /\ 0 <= y1
  /\ img_width tile = x2 - x1 /\ img_height tile = y2 - y1
  /\ 1 <= img_width tile /\ x1 + img_width tile <= 30
  /\ 1 <= img_height tile /\ y1 + img_height tile <= 30
  /\ 5 * img_width tile <= 8 * (30 / 3)
  /\ 5 * img_height tile <= 8 * (30 / 3)
  /\ forall y x,
       img_pixel tile y x = img_pixel (plain_image 30 30) (y1 + y) (x1 + x).
Proof.
  apply (tile_is_part_of_image (plain_image 30 30) 1 2); cbn; lia.
Defined.

(** ** The result assembler: colors, filter and boxes *)

Lemma dominant_color_region img center_x center_y :
  dominant_color img center_x center_y
  = let region := sample_region img center_x center_y in
    if 0 <? img_height region * img_width region * 3 then
      ("#" ++ hex2 (channel_mean region (fun p => p.2))
           ++ hex2 (channel_mean region (fun p => p.1.2))
           ++ hex2 (channel_mean region (fun p => p.1.1)))%string
    else "#888888"%string.
Proof. reflexivity. Qed.

(** Truncation of a non-negative value is its floor. *)
Lemma int_floor q : (0 <= q)%Q -> Py.int q = Qfloor q.
Proof.
  destruct q as [n d]. unfold Qle. cbn. intros H.
  unfold Py.int. cbn [Qnum Qden]. apply Z.quot_div_nonneg; lia.
Qed.

Lemma int_range q (lo hi : Z) :
  0 <= lo -> (inject_Z lo <= q <= inject_Z hi)%Q -> lo <= Py.int q <= hi.
Proof.
  intros Hlo [H1 H2].
  rewrite int_floor
    by (apply Qle_trans with (inject_Z lo); [by rewrite <- (Zle_Qle 0)|done]).
  apply Qfloor_resp_le in H1, H2. rewrite Qfloor_Z in H1, H2. lia.
Qed.

Lemma range_elem n k : k ∈ Py.range n -> 0 <= k < n.
Proof.
  intros H. apply list_elem_of_In in H. unfold Py.range, Py.range2 in H.
  apply in_map_iff in H as (i & <- & Hi). apply in_seq in Hi. lia.
Qed.

Lemma range_length n : Z.of_nat (length (Py.range n)) = Z.max 0 n.
Proof.
  unfold Py.range, Py.range2. rewrite length_map, length_seq. lia.
Qed.

Lemma row_sum_bounds (g : Z -> Z) lo hi xs acc :
  (forall x, x ∈ xs -> lo <= g x <= hi) ->
  acc + lo * Z.of_nat (length xs)
  <= foldr (fun x acc' => g x + acc') acc xs
  <= acc + hi * Z.of_nat (length xs).
Proof.
  induction xs as [|x xs IH]; intros Hg; cbn [foldr length]; [lia|].
  pose proof (Hg x (list_elem_of_here _ _)).
  specialize (IH (fun z Hz => Hg z (list_elem_of_further _ _ _ Hz))).
  rewrite Nat2Z.inj_succ. lia.
Qed.

Lemma grid_sum_bounds (g : Z -> Z -> Z) lo hi ys xs :
  (forall y x, y ∈ ys -> x ∈ xs -> lo <= g y x <= hi) ->
  lo * (Z.of_nat (length ys) * Z.of_nat (length xs))
  <= foldr (fun y acc => foldr (fun x acc' => g y x + acc') acc xs) 0 ys
  <= hi * (Z.of_nat (length ys) * Z.of_nat (length xs)).
Proof.
  induction ys as [|y ys IH]; intros Hg; cbn [foldr length]; [lia|].
  specialize (IH (fun z x Hz Hx => Hg z x (list_elem_of_further _ _ _ Hz) Hx)).
  pose proof (row_sum_bounds (g y) lo hi xs
                (foldr (fun y acc => foldr (fun x acc' => g y x + acc') acc xs) 0 ys)
                (fun x Hx => Hg y x (list_elem_of_here _ _) Hx)).
  rewrite Nat2Z.inj_succ. lia.
Qed.

(** The mean of a channel over a non-empty region lies between the least
    and the greatest value of the channel in the region. *)
Lemma channel_mean_bounds region channel lo hi :
  0 < img_height region -> 0 < img_width region -> 0 <= lo ->
  (forall y x, 0 <= y < img_height region -> 0 <= x < img_width region ->
               lo <= channel (img_pixel region y x) <= hi) ->
  lo <= channel_mean region channel <= hi.
Proof.
  intros Hh Hw Hlo Hpix. unfold channel_mean.
  pose proof (grid_sum_bounds (fun y x => channel (img_pixel region y x)) lo hi
                (Py.range (img_height region)) (Py.range (img_width region))
                (fun y x Hy Hx => Hpix y x (range_elem _ _ Hy) (range_elem _ _ Hx)))
    as Hsum.
  rewrite !range_length, !Z.max_r in Hsum by lia.
  fold (channel_sum region channel) in Hsum.
  set (S := channel_sum region channel) in *.
  set (N := img_height region * img_width region) in *.
  assert (0 < N) as HN by (subst N; nia).
  assert (0 < inject_Z N)%Q as HNq by (by apply inject_Z_pos).
  apply int_range; [done|]. split.
  - apply Qle_shift_div_l; [done|]. rewrite <- inject_Z_mult, <- Zle_Qle. lia.
  - apply Qle_shift_div_r; [done|]. rewrite <- inject_Z_mult, <- Zle_Qle. lia.
Qed.

(** A pixel of a crop is a pixel of the image. *)
Lemma crop_pixel img y1 y2 x1 x2 y x :
  0 <= img_height img -> 0 <= img_width img ->
  0 <= y < img_height (crop img y1 y2 x1 x2) ->
  0 <= x < img_width (crop img y1 y2 x1 x2) ->
  exists y' x',
    img_pixel (crop img y1 y2 x1 x2) y x = img_pixel img y' x'
    /\ 0 <= y' < img_height img /\ 0 <= x' < img_width img.
Proof.
  unfold crop, Py.slice_bound. cbn [img_height img_width img_pixel].
  intros Hh Hw Hy Hx. eexists _, _. split; [reflexivity|].
  revert Hy Hx. axis_tests; lia.
Qed.

Lemma hex2_shape n :
  0 <= n <= 255 ->
  exists a b, hex2 n = String a (String b EmptyString)
              /\ is_hex_digit a = true /\ is_hex_digit b = true.
Proof.
  intros H.
  assert (forallb (fun n => match hex2 n with
                            | String a (String b EmptyString) =>
                                is_hex_digit a && is_hex_digit b
                            | _ => false
                            end) (Py.range 256) = true) as Hall
    by (vm_compute; reflexivity).
  rewrite forallb_forall in Hall. specialize (Hall n (range_In 256 n ltac:(lia))).
  destruct (hex2 n) as [|a [|b [|c s]]]; try done.
  apply andb_true_iff in Hall as [Ha Hb]. by exists a, b.
Qed.

(** X18.  On an image of [uint8] pixels the color of a hold is always a
    well-formed color: [#] followed by six lower-case hexadecimal digits,
    wherever the center is, also outside the image. *)
Theorem dominant_color_is_hex img center_x center_y :
  0 <= img_height img -> 0 <= img_width img ->
  uint8_image img ->
  is_hex_color (dominant_color img center_x center_y) = true.
Proof.
  intros Hh Hw Hpix. rewrite dominant_color_region. cbv zeta.
  unfold sample_region. cbv zeta.
  set (region := crop img _ _ _ _).
  destruct (Z.ltb_spec 0 (img_height region * img_width region * 3)) as [Hsize|];
    [|reflexivity].
  assert (0 <= img_height region /\ 0 <= img_width region) as [Hrh Hrw].
  { subst region. unfold crop. cbn [img_height img_width]. lia. }
  assert (0 < img_height region /\ 0 < img_width region) as [Hrh' Hrw'] by nia.
  assert (forall channel,
            (forall y x, 0 <= y < img_height img -> 0 <= x < img_width img ->
                         0 <= channel (img_pixel img y x) <= 255) ->
            0 <= channel_mean region channel <= 255) as Hmean.
  { intros channel Hc. apply channel_mean_bounds; [done|done|lia|].
    intros y x Hy Hx. subst region.
    destruct (crop_pixel img _ _ _ _ y x Hh Hw Hy Hx) as (y' & x' & -> & ? & ?).
    by apply Hc. }
  destruct (hex2_shape _ (Hmean (fun p => p.2)
              (fun y x Hy Hx => proj2 (proj2 (Hpix y x Hy Hx)))))
    as (r1 & r2 & -> & Hr1 & Hr2).
  destruct (hex2_shape _ (Hmean (fun p => p.1.2)
              (fun y x Hy Hx => proj1 (proj2 (Hpix y x Hy Hx)))))
    as (g1 & g2 & -> & Hg1 & Hg2).
  destruct (hex2_shape _ (Hmean (fun p => p.1.1)
              (fun y x Hy Hx => proj1 (Hpix y x Hy Hx))))
    as (b1 & b2 & -> & Hb1 & Hb2).
  cbn -[is_hex_digit]. by rewrite Hr1, Hr2, Hg1, Hg2, Hb1, Hb2.
Qed.

Lemma dominant_color_is_hex_witness :
  is_hex_color (dominant_color (plain_image 30 30) (150 # 1) (-7 # 1)) = true.
Proof.
  apply (dominant_color_is_hex (plain_image 30 30)); [cbn; lia|cbn; lia|].
  intros y x _ _. cbn. lia.
Defined.

(** The pixel of a percentage between 0 and 100 is a position between 0
    and the size of the axis. *)
Lemma to_pixel_range percent dim :
  0 <= dim -> (0 <= percent <= 100)%Q -> 0 <= to_pixel percent dim <= dim.
Proof.
  intros Hdim Hp. unfold to_pixel. apply int_range; [lia|].
  assert (0 <= inject_Z dim)%Q as HD by (by rewrite <- (Zle_Qle 0)).
  change (inject_Z 0) with 0%Q. unfold Qdiv. change (/ 100)%Q with (1 # 100)%Q.
  set (D := inject_Z dim) in *. split; qnra.
Qed.

(** One axis of the sampled region. *)
Lemma sample_axis dim c :
  1 <= dim -> 0 <= c <= dim ->
  1 <= Z.max 0 (Py.slice_bound dim (Z.min dim (c + sample_size))
                - Py.slice_bound dim (Z.max 0 (c - sample_size))) <= 10.
Proof.
  intros Hdim Hc. unfold Py.slice_bound, sample_size. axis_tests; lia.
Qed.

(** The region sampled around a center inside the image. *)
Lemma sample_region_size img center_x center_y :
  1 <= img_width img -> 1 <= img_height img ->
  (0 <= center_x <= 100)%Q -> (0 <= center_y <= 100)%Q ->
  let region := sample_region img center_x center_y in
  1 <= img_width region <= 10 /\ 1 <= img_height region <= 10.
Proof.
  intros Hw Hh Hx Hy.
  pose proof (to_pixel_range center_x (img_width img) ltac:(lia) Hx) as Hcx.
  pose proof (to_pixel_range center_y (img_height img) ltac:(lia) Hy) as Hcy.
  unfold sample_region, crop. cbv zeta. cbn [img_height img_width].
  split; by apply sample_axis.
Qed.

(** X19.  For a center between 0 and 100 percent on both axes of a
    non-empty image, the sampled region is never empty: it is between 1 and
    10 pixels wide and high, and the color is computed from its channel
    means, the placeholder color is not used. *)
Theorem dominant_color_sampled img center_x center_y :
  1 <= img_width img -> 1 <= img_height img ->
  (0 <= center_x <= 100)%Q -> (0 <= center_y <= 100)%Q ->
  let region := sample_region img center_x center_y in
  1 <= img_width region <= 10 /\ 1 <= img_height region <= 10
  /\ dominant_color img center_x center_y
     = ("#" ++ hex2 (channel_mean region (fun p => p.2))
            ++ hex2 (channel_mean region (fun p => p.1.2))
            ++ hex2 (channel_mean region (fun p => p.1.1)))%string.
Proof.
  intros Hw Hh Hx Hy region.
  destruct (sample_region_size img center_x center_y Hw Hh Hx Hy) as [Hrw Hrh].
  fold region in Hrw, Hrh. split; [done|]. split; [done|].
  rewrite dominant_color_region. cbv zeta. fold region.
  destruct (Z.ltb_spec 0 (img_height region * img_width region * 3)); [done|nia].
Qed.

Lemma dominant_color_sampled_witness :
  let region := sample_region (plain_image 30 30) 100 0 in
  1 <= img_width region <= 10 /\ 1 <= img_height region <= 10
  /\ dominant_color (plain_image 30 30) 100 0
     = ("#" ++ hex2 (channel_mean region (fun p => p.2))
            ++ hex2 (channel_mean region (fun p => p.1.2))
            ++ hex2 (channel_mean region (fun p => p.1.1)))%string.
Proof.
  apply (dominant_color_sampled (plain_image 30 30) 100 0);
    cbn; first [lia | split; discriminate].
Defined.

(** X20.  On an image of one color [(b, g, r)], the color of every hold
    whose center is between 0 and 100 percent is that color, written red
    first: the channel means are the channel values, in the order reversed
    from the BGR order of the image. *)
Theorem dominant_color_uniform img b g r center_x center_y :
  1 <= img_width img -> 1 <= img_height img ->
  0 <= b -> 0 <= g -> 0 <= r ->
  (forall y x, 0 <= y < img_height img -> 0 <= x < img_width img ->
               img_pixel img y x = (b, g, r)) ->
  (0 <= center_x <= 100)%Q -> (0 <= center_y <= 100)%Q ->
  dominant_color img center_x center_y
  = ("#" ++ hex2 r ++ hex2 g ++ hex2 b)%string.
Proof.
  intros Hw Hh Hb Hg Hr Hpix Hx Hy.
  destruct (sample_region_size img center_x center_y Hw Hh Hx Hy) as [Hrw Hrh].
  rewrite dominant_color_region. cbv zeta in *.
  set (region := sample_region img center_x center_y) in *.
  destruct (Z.ltb_spec 0 (img_height region * img_width region * 3)); [|nia].
  assert (forall channel c, 0 <= c -> channel (b, g, r) = c ->
                            channel_mean region channel = c) as Hmean.
  { intros channel c Hc Hch.
    enough (c <= channel_mean region channel <= c) by lia.
    apply channel_mean_bounds; [lia|lia|done|].
    intros y x Hy' Hx'. subst region. unfold sample_region in *.
    cbv zeta in *.
    destruct (crop_pixel img _ _ _ _ y x ltac:(lia) ltac:(lia) Hy' Hx')
      as (y' & x' & -> & ? & ?).
    rewrite Hpix by done. lia. }
  by rewrite (Hmean (fun p => p.2) r Hr eq_refl),
    (Hmean (fun p => p.1.2) g Hg eq_refl),
    (Hmean (fun p => p.1.1) b Hb eq_refl).
Qed.

Lemma dominant_color_uniform_witness :
  dominant_color (plain_image 30 30) (1234 # 100) (99 # 1) = "#ff200a"%string.
Proof.
  apply (dominant_color_uniform (plain_image 30 30) 10 32 255);
    cbn; first [lia | reflexivity | split; discriminate].
Defined.

(** *** The filter of the assembler *)

Lemma assemble_hold_emitted img confidence pred :
  match assemble_hold img confidence pred with
  | Some h =>
      emitted confidence pred = true
      /\ hold_confidence h = Py.round (confidence_of pred) 3
      /\ hold_class h = get (pred_class pred) "hold"%string
  | None => emitted confidence pred = false
  end.
Proof.
  unfold assemble_hold, emitted, confidence_of.
  destruct (Qlt_le_dec _ _) as [Hlt|Hle].
  - apply andb_false_iff. left. apply not_true_is_false. intros H.
    apply Qle_bool_iff in H. qlra.
  - apply Qle_bool_iff in Hle. rewrite Hle. cbn [andb].
    unfold geometry, empty_points.
    by destruct (pred_points pred) as [[|p pts]|].
Qed.

(** X21.  The assembler emits one hold for each detection whose confidence
    is at least the threshold and whose polygon, if it has one, is not
    empty, and for no other; the holds come in the order of the detections,
    each with the confidence rounded to 3 decimals and with the class of
    the detection, ["hold"] when it has none. *)
Theorem assemble_emits_confident img confidence predictions :
  map (fun h => (hold_confidence h, hold_class h))
      (assemble img confidence predictions)
  = map (fun pred => (Py.round (confidence_of pred) 3,
                      get (pred_class pred) "hold"%string))
        (List.filter (emitted confidence) predictions).
Proof.
  unfold assemble. induction predictions as [|pred rest IH]; [done|].
  cbn [omap list_omap List.filter].
  pose proof (assemble_hold_emitted img confidence pred) as H.
  destruct (assemble_hold img confidence pred) as [h|].
  - destruct H as (He & Hc & Hcl). rewrite He. cbn [map].
    by rewrite Hc, Hcl, IH.
  - by rewrite H.
Qed.

(** *** The polygon of a box *)

Lemma round_half_even_mono q q' :
  (q <= q')%Q -> Py.round_half_even q <= Py.round_half_even q'.
Proof.
  intros Hle. pose proof (Qfloor_resp_le _ _ Hle) as Hf.
  destruct (Z.eq_dec (Qfloor q) (Qfloor q')) as [E|Hne].
  - unfold Py.round_half_even. rewrite <- E.
    destruct (Qcompare_spec (q - inject_Z (Qfloor q)) (1 # 2)) as [H1|H1|H1];
      destruct (Qcompare_spec (q' - inject_Z (Qfloor q)) (1 # 2)) as [H2|H2|H2];
      try destruct (Z.even (Qfloor q)); try lia; qlra.
  - destruct (round_half_even_cases q) as [-> | ->];
      destruct (round_half_even_cases q') as [-> | ->]; lia.
Qed.

Lemma round_mono q q' n : (q <= q')%Q -> (Py.round q n <= Py.round q' n)%Q.
Proof.
  intros Hle. unfold Py.round.
  assert (0 < 10 ^ Z.of_nat n) as Hpos by (apply Z.pow_pos_nonneg; lia).
  pose proof (inject_Z_pos _ Hpos) as Hs.
  set (scale := inject_Z (10 ^ Z.of_nat n)) in *.
  assert (Py.round_half_even (q * scale) <= Py.round_half_even (q' * scale)) as H.
  { apply round_half_even_mono. qnra. }
  rewrite Zle_Qle in H.
  apply Qle_shift_div_l; [done|].
  set (a := inject_Z (Py.round_half_even (q * scale))) in *.
  set (b := inject_Z (Py.round_half_even (q' * scale))) in *.
  assert (a / scale * scale == a)%Q as -> by (field; qlra). done.
Qed.

Lemma to_percent_mono v v' dim :
  0 < dim -> (v <= v')%Q -> (to_percent v dim <= to_percent v' dim)%Q.
Proof.
  intros Hdim Hle. unfold to_percent.
  pose proof (inject_Z_pos dim Hdim) as HD.
  assert (v / inject_Z dim <= v' / inject_Z dim)%Q.
  { apply Qle_shift_div_l; [done|].
    assert (v / inject_Z dim * inject_Z dim == v)%Q as -> by (field; qlra).
    done. }
  qlra.
Qed.

(** X22.  The polygon built for a box-form detection with a non-negative
    width and height, in an image of positive size, is an axis-aligned
    rectangle given by its corners top-left, top-right, bottom-right and
    bottom-left, and the center of the hold lies on or inside it. *)
Theorem box_polygon_is_rectangle width height pred polygon center_x center_y :
  0 < width -> 0 < height ->
  pred_points pred = None ->
  (0 <= get (pred_width pred) 0)%Q -> (0 <= get (pred_height pred) 0)%Q ->
  geometry width height pred = Some (polygon, center_x, center_y) ->
  exists left right top bottom,
    polygon = [ Point left top; Point right top;
                Point right bottom; Point left bottom ]
    /\ (left <= center_x <= right)%Q /\ (top <= center_y <= bottom)%Q.
Proof.
  intros Hw Hh Hnone Hbw Hbh Hgeo. unfold geometry in Hgeo.
  rewrite Hnone in Hgeo. cbv zeta in Hgeo. injection Hgeo as <- <- <-.
  unfold percent_point.
  set (x := get (pred_x pred) 0%Q) in *. set (y := get (pred_y pred) 0%Q) in *.
  set (w := get (pred_width pred) 0%Q) in *.
  set (h := get (pred_height pred) 0%Q) in *.
  eexists _, _, _, _. split; [reflexivity|].
  assert (x - w / 2 <= x <= x + w / 2)%Q as [Hx1 Hx2].
  { unfold Qdiv. change (/ 2)%Q with (1 # 2)%Q. split; qlra. }
  assert (y - h / 2 <= y <= y + h / 2)%Q as [Hy1 Hy2].
  { unfold Qdiv. change (/ 2)%Q with (1 # 2)%Q. split; qlra. }
  repeat split; by apply round_mono, to_percent_mono.
Qed.

Lemma box_polygon_is_rectangle_witness :
  exists polygon center_x center_y,
    geometry 30 30 edge_box = Some (polygon, center_x, center_y)
    /\ exists left right top bottom,
         polygon = [ Point left top; Point right top;
                     Point right bottom; Point left bottom ]
         /\ (left <= center_x <= right)%Q /\ (top <= center_y <= bottom)%Q.
Proof.
  eexists _, _, _. split; [reflexivity|].
  apply (box_polygon_is_rectangle 30 30 edge_box);
    [lia | lia | reflexivity | vm_compute; discriminate
    | vm_compute; discriminate | reflexivity].
Defined.

(** ** The pipeline: requests and waits of a run *)

Lemma after_calls_0 w : after_calls 0 w w.
Proof.
  exists []. rewrite app_nil_r. repeat split; [lia|lia|cbn; lia|constructor].
Qed.

Lemma after_calls_add a b w w1 w2 :
  after_calls a w w1 -> after_calls b w1 w2 -> after_calls (a + b) w w2.
Proof.
  intros (l1 & Hp1 & Hs1 & Hl1 & Hf1) (l2 & Hp2 & Hs2 & Hl2 & Hf2).
  exists (l1 ++ l2). split; [lia|]. split; [by rewrite Hs2, Hs1, app_assoc|].
  split; [rewrite length_app; lia|]. by apply Forall_app.
Qed.

(** One call of the client with three attempts. *)
Lemma call_api_after service tile api_key confidence w r w' :
  call_api service tile api_key confidence 3 w = (r, w') ->
  after_calls 1 w w'.
Proof.
  intros Hrun. unfold call_api in Hrun.
  apply (call_api_loop_trace service _ 3 3 0) in Hrun; [|lia|lia|lia].
  destruct Hrun as (k & Hk & Hposts & Hsleeps & _).
  exists (map (fun attempt => 2 ^ attempt) (Py.range2 0 (0 + Z.of_nat k - 1))).
  split; [lia|]. split; [done|].
  assert (k = 1 \/ k = 2 \/ k = 3)%nat as [-> | [-> | ->]] by lia;
    set (added := map _ _); vm_compute in added; subst added;
    (split; [cbn [length]; lia|]);
    apply Forall_forall; intros s Hs; apply list_elem_of_In in Hs;
    cbn in Hs; lia.
Qed.

Lemma process_tile_after service img api_key confidence row col acc w r w' :
  process_tile service img api_key confidence row col acc w = (r, w') ->
  after_calls 1 w w'.
Proof.
  unfold process_tile.
  destruct (tile_bounds _ _ row col) as [[[x1 y1] x2] y2].
  unfold bind. intros Hrun.
  destruct (call_api _ _ _ _ _ w) as [[predictions|e] w1] eqn:Ecall.
  - apply call_api_after in Ecall. unfold lift, ret in Hrun.
    destruct (adjust_all x1 y1 predictions); by simplify_eq.
  - apply call_api_after in Ecall. by simplify_eq.
Qed.

(** A loop whose body makes [m] calls when it returns and at least one and
    at most [m] when it raises. *)
Lemma for_each_after {A T} (m : nat) (xs : list A) (body : A -> T -> M T) :
  (forall x acc w r w',
     body x acc w = (r, w') ->
     match r with
     | Return _ => after_calls m w w'
     | Raise _ => exists n, (1 <= n <= m)%nat /\ after_calls n w w'
     end) ->
  forall acc w r w',
    for_each xs body acc w = (r, w') ->
    match r with
    | Return _ => after_calls (m * length xs) w w'
    | Raise _ => exists n, (1 <= n <= m * length xs)%nat /\ after_calls n w w'
    end.
Proof.
  intros Hbody. induction xs as [|x xs IH]; intros acc w r w' Hrun;
    cbn [for_each] in Hrun.
  - unfold ret in Hrun. simplify_eq. rewrite Nat.mul_0_r. apply after_calls_0.
  - unfold bind in Hrun.
    destruct (body x acc w) as [[acc1|e] w1] eqn:E.
    + pose proof (Hbody x acc w _ _ E) as H1. cbn beta iota in H1.
      specialize (IH acc1 w1 r w' Hrun). cbn [length]. destruct r as [a|e].
      * replace (m * S (length xs))%nat with (m + m * length xs)%nat by lia.
        by eapply after_calls_add.
      * destruct IH as (n & Hn & Hafter). exists (m + n)%nat.
        split; [lia|]. by eapply after_calls_add.
    + pose proof (Hbody x acc w _ _ E) as (n & Hn & Hafter).
      simplify_eq. exists n. split; [cbn [length]; nia|done].
Qed.

Lemma collect_predictions_after service img api_key confidence w r w' :
  collect_predictions service img api_key confidence w = (r, w') ->
  match r with
  | Return _ => after_calls 9 w w'
  | Raise _ => exists n, (1 <= n <= 9)%nat /\ after_calls n w w'
  end.
Proof.
  unfold collect_predictions.
  change (Py.range tile_rows) with [0; 1; 2].
  change (Py.range tile_cols) with [0; 1; 2].
  apply (for_each_after 3 [0; 1; 2]).
  intros row acc w0 r0 w0'.
  apply (for_each_after 1 [0; 1; 2]).
  intros col acc1 w1 r1 w1' Hrun. apply process_tile_after in Hrun.
  destruct r1; [done|]. exists 1%nat. split; [lia|done].
Qed.

(** X23.  Whatever the service answers, a run on an image at least 3 pixels
    wide and high posts at most 27 requests: at most three for each of the
    tiles it reaches, all nine of them when it returns, at least one when it
    raises.  It waits once, for 1 or 2 seconds, before every request that
    is not the first of its tile, and at no other time. *)
Theorem detect_holds_requests service img api_key confidence w r w' :
  3 <= img_width img -> 3 <= img_height img ->
  detect_holds service img api_key confidence w = (r, w') ->
  exists (calls : nat) (added : list Z),
    (1 <= calls <= 9)%nat
    /\ match r with Return _ => calls = 9%nat | Raise _ => True end
    /\ (posts w + calls <= posts w' <= posts w + 3 * calls)%nat
    /\ sleeps w' = sleeps w ++ added
    /\ length added = (posts w' - posts w - calls)%nat
    /\ Forall (fun s => s = 1 \/ s = 2) added.
Proof.
  intros _ _ Hrun. unfold detect_holds, bind, ret in Hrun.
  destruct (collect_predictions _ _ _ _ w) as [[all_predictions|e] w1] eqn:E;
    apply collect_predictions_after in E; simplify_eq.
  - destruct E as (added & ? & ? & ? & ?). exists 9%nat, added.
    repeat split; try done; lia.
  - destruct E as (n & Hn & added & ? & ? & ? & ?). exists n, added.
    repeat split; try done; lia.
Qed.

Lemma detect_holds_requests_witness :
  exists r w',
    detect_holds service_recovers (plain_image 30 30) "key" (1 # 2) (World 0 [])
    = (r, w')
    /\ exists (calls : nat) (added : list Z),
         (1 <= calls <= 9)%nat
         /\ match r with Return _ => calls = 9%nat | Raise _ => True end
         /\ (posts (World 0 []) + calls <= posts w'
             <= posts (World 0 []) + 3 * calls)%nat
         /\ sleeps w' = sleeps (World 0 []) ++ added
         /\ length added = (posts w' - posts (World 0 []) - calls)%nat
         /\ Forall (fun s => s = 1 \/ s = 2) added.
Proof.
  eexists _, _. split; [vm_compute; reflexivity|].
  apply (detect_holds_requests service_recovers (plain_image 30 30) "key"
           (1 # 2) (World 0 []));
    [cbn; lia | cbn; lia | vm_compute; reflexivity].
Defined.

(** *** A run against a healthy service *)

Lemma calls_without_wait_0 w : calls_without_wait 0 w w.
Proof. split; [lia|done]. Qed.

Lemma calls_without_wait_add a b w w1 w2 :
  calls_without_wait a w w1 -> calls_without_wait b w1 w2 ->
  calls_without_wait (a + b) w w2.
Proof. intros [Hp1 Hs1] [Hp2 Hs2]. split; [lia|congruence]. Qed.

(** The mapper raises nothing but a [KeyError]. *)
Lemma adjust_all_raises_key_error x1 y1 predictions e :
  adjust_all x1 y1 predictions = Raise e -> not_api_error e.
Proof.
  induction predictions as [|p rest IH]; cbn [adjust_all]; [done|].
  destruct (adjust_prediction x1 y1 p) as [p'|e0] eqn:Ep.
  - destruct (adjust_all x1 y1 rest); [done|]. intros Heq. simplify_eq.
    by apply IH.
  - intros Heq. simplify_eq. unfold adjust_prediction in Ep.
    destruct (pred_points p); [done|].
    destruct (pred_x p); [destruct (pred_y p); [done|]|];
      simplify_eq; by intros s t.
Qed.

(** A loop whose body makes [m] requests when it returns and at least one
    and at most [m] when it raises, without waiting. *)
Lemma for_each_without_wait {A T} (m : nat) (xs : list A) (body : A -> T -> M T) :
  (forall x acc w r w',
     body x acc w = (r, w') ->
     match r with
     | Return _ => calls_without_wait m w w'
     | Raise e =>
         not_api_error e
         /\ exists n, (1 <= n <= m)%nat /\ calls_without_wait n w w'
     end) ->
  forall acc w r w',
    for_each xs body acc w = (r, w') ->
    match r with
    | Return _ => calls_without_wait (m * length xs) w w'
    | Raise e =>
        not_api_error e
        /\ exists n, (1 <= n <= m * length xs)%nat /\ calls_without_wait n w w'
    end.
Proof.
  intros Hbody. induction xs as [|x xs IH]; intros acc w r w' Hrun;
    cbn [for_each] in Hrun.
  - unfold ret in Hrun. simplify_eq. rewrite Nat.mul_0_r.
    apply calls_without_wait_0.
  - unfold bind in Hrun.
    destruct (body x acc w) as [[acc1|e] w1] eqn:E.
    + pose proof (Hbody x acc w _ _ E) as H1. cbn beta iota in H1.
      specialize (IH acc1 w1 r w' Hrun). cbn [length]. destruct r as [a|e].
      * replace (m * S (length xs))%nat with (m + m * length xs)%nat by lia.
        by eapply calls_without_wait_add.
      * destruct IH as (He & n & Hn & Hafter). split; [done|].
        exists (m + n)%nat. split; [lia|]. by eapply calls_without_wait_add.
    + pose proof (Hbody x acc w _ _ E) as (He & n & Hn & Hafter).
      simplify_eq. split; [done|]. exists n. split; [cbn [length]; nia|done].
Qed.

Section HealthyService.

Variable service : nat -> request -> response.

Hypothesis service_ok : forall n req, status_code (service n req) = 200.

Lemma process_tile_healthy img api_key confidence row col acc w r w' :
  process_tile service img api_key confidence row col acc w = (r, w') ->
  match r with
  | Return _ => calls_without_wait 1 w w'
  | Raise e =>
      not_api_error e
      /\ exists n, (1 <= n <= 1)%nat /\ calls_without_wait n w w'
  end.
Proof.
  unfold process_tile.
  destruct (tile_bounds _ _ row col) as [[[x1 y1] x2] y2].
  unfold bind, call_api. change (Py.range 3) with [0; 1; 2].
  rewrite call_api_loop_ok by apply service_ok.
  unfold lift, ret.
  destruct (adjust_all x1 y1 _) as [predictions'|e] eqn:Eadj;
    intros Heq; simplify_eq.
  - split; cbn; [lia|done].
  - split; [by eapply adjust_all_raises_key_error|].
    exists 1%nat. split; [lia|]. split; cbn; [lia|done].
Qed.

Lemma collect_predictions_healthy img api_key confidence w r w' :
  collect_predictions service img api_key confidence w = (r, w') ->
  match r with
  | Return _ => calls_without_wait 9 w w'
  | Raise e =>
      not_api_error e
      /\ exists n, (1 <= n <= 9)%nat /\ calls_without_wait n w w'
  end.
Proof.
  unfold collect_predictions.
  change (Py.range tile_rows) with [0; 1; 2].
  change (Py.range tile_cols) with [0; 1; 2].
  apply (for_each_without_wait 3 [0; 1; 2]).
  intros row acc w0 r0 w0'.
  apply (for_each_without_wait 1 [0; 1; 2]).
  intros col acc1 w1 r1 w1'. apply process_tile_healthy.
Qed.

End HealthyService.

(** X24.  Against a service that answers every request with status 200, a
    run on an image at least 3 pixels wide and high never waits and posts
    one request for each tile it reaches: exactly nine when it returns; at
    least one and at most nine when it raises, and what it raises is not
    an API error. *)
Theorem healthy_run_requests service img api_key confidence w r w' :
  3 <= img_width img -> 3 <= img_height img ->
  (forall n req, status_code (service n req) = 200) ->
  detect_holds service img api_key confidence w = (r, w') ->
  sleeps w' = sleeps w
  /\ match r with
     | Return _ => posts w' = (posts w + 9)%nat
     | Raise e =>
         (posts w + 1 <= posts w' <= posts w + 9)%nat
         /\ forall status text, e <> APIError status text
     end.
Proof.
  intros _ _ Hok Hrun. unfold detect_holds, bind, ret in Hrun.
  destruct (collect_predictions _ _ _ _ w) as [[all_predictions|e] w1] eqn:E;
    apply (collect_predictions_healthy service Hok) in E; simplify_eq.
  - by destruct E as [-> ->].
  - destruct E as (He & n & Hn & Hposts & Hsleeps).
    split; [done|]. split; [lia|done].
Qed.

Lemma healthy_run_requests_witness :
  exists r w',
    detect_holds service_triangles (plain_image 30 30) "key" (1 # 2) (World 4 [1])
    = (r, w')
    /\ sleeps w' = sleeps (World 4 [1])
    /\ match r with
       | Return _ => posts w' = (posts (World 4 [1%Z]) + 9)%nat
       | Raise e =>
           (posts (World 4 [1%Z]) + 1 <= posts w'
            <= posts (World 4 [1%Z]) + 9)%nat
           /\ forall status text, e <> APIError status text
       end.
Proof.
  eexists _, _. split; [vm_compute; reflexivity|].
  apply (healthy_run_requests service_triangles (plain_image 30 30) "key"
           (1 # 2) (World 4 [1]));
    [cbn; lia | cbn; lia | | vm_compute; reflexivity].
  intros n req. unfold service_triangles. by destruct (_ && _).
Defined.
